(** * Tudat: unit test of the Kepler propagator

    Shallow embedding of [unit_tests::testKeplerPropagator]
    (Astrodynamics/Propagators/unitTestKeplerPropagator.cpp) and of the
    series-propagation design it exercises.

    - [Double]: C++ [double] as IEEE 754 binary64, through the executable
      specification of the standard library ([SpecFloat], precision 53,
      exponent bound 1024, round to nearest even).
    - [DoubleMap]: [std::map<double, V>], an association list kept sorted
      by [operator<] on the keys.
    - [IStream]: the part of [std::ifstream] the test uses: state bits,
      [eof()], [operator!] and formatted extraction of a [double].
    - [UnitTest]: the test function itself, loop by loop.
    - [Design]: the series driver, the single-step propagator and the
      Newton-Raphson solver, which the test only calls.
    - [BenchmarkFile]: the layout of a benchmark table, to say what the
      loading loop does with one.

    The proofs follow the definitions: exactness of small integers in
    binary64 ([DoubleFacts], [KeyFacts]), the map and the stream
    ([DoubleMapFacts], [IStreamFacts]), the loading loop ([LoaderFacts],
    [HistoryFacts]), the test ([UnitTestFacts]) and the driver
    ([KeyOrderFacts], [DesignFacts]); then the loading loop on texts of any kind
    ([TerminationFacts], [RaggedFacts]) and the comparison and the
    conversion of units ([ComparisonFacts]). *)

From Stdlib Require Import ZArith List Ascii String Bool Lia SpecFloat.
Import ListNotations.
Local Open Scope Z_scope.

(** ** C++ [double] *)

Module Double.

Definition prec : Z := 53.
Definition emax : Z := 1024.

Definition double : Type := spec_float.

Definition zero : double := S754_zero false.
Definition add : double -> double -> double := SFadd prec emax.
Definition sub : double -> double -> double := SFsub prec emax.
Definition mul : double -> double -> double := SFmul prec emax.
Definition div : double -> double -> double := SFdiv prec emax.
Definition abs : double -> double := SFabs.
Definition ltb : double -> double -> bool := SFltb.
Definition leb : double -> double -> bool := SFleb.
Definition eqb : double -> double -> bool := SFeqb.

(** Conversion of an integer ([unsigned int] to [double] in the test;
    every 32-bit value is below 2^53 and converts exactly). *)
Definition of_Z (n : Z) : double := binary_normalize prec emax n 0 false.

(** The decimal number [(-1)^neg * m * 10^e], correctly rounded: the
    value of a floating literal of the source and of a field read from
    a text stream. *)
Definition of_decimal (neg : bool) (m : Z) (e : Z) : double :=
  match m with
  | Z0 => S754_zero neg
  | Zneg _ => S754_nan
  | Zpos _ =>
      if 0 <=? e
      then binary_normalize prec emax
             ((if neg then - m else m) * 10 ^ e) 0 false
      else let '(q, e', l) :=
             SFdiv_core_binary prec emax m 0 (10 ^ (- e)) 0 in
           binary_round_aux prec emax neg q e' l
  end.

Definition opp : double -> double := SFopp.

(** [DBL_MAX], the largest finite value. *)
Definition max_value : double := SFmax_float prec emax.

Definition is_infinite (x : double) : bool :=
  match x with S754_infinity _ => true | _ => false end.

(** Canonical binary64 form of a positive integer below 2^53: the
    mantissa shifted to 53 bits. *)
Definition canon (x : positive) : double :=
  let d := Zpos (digits2_pos x) in
  S754_finite false (Z.to_pos (2 ^ (53 - d) * Zpos x)) (d - 53).

End Double.

Abbreviation double := Double.double.

(** [unsigned int] is 32 bits wide; [++] wraps around. *)
Definition UINT_MODULUS : Z := 2 ^ 32.
Definition uint_succ (n : Z) : Z := (n + 1) mod UINT_MODULUS.

(** ** [std::map<double, V>] *)

Module DoubleMap.
Section Map.
Context {V : Type}.

Definition t : Type := list (double * V).

Definition empty : t := [].

(** Two keys are the same key when neither is less than the other. *)
Definition equiv (a b : double) : bool :=
  negb (Double.ltb a b) && negb (Double.ltb b a).

Fixpoint find (k : double) (m : t) : option V :=
  match m with
  | [] => None
  | (k', v) :: m' => if equiv k k' then Some v else find k m'
  end.

(** Insertion of a key that is not in the map, at its place in the
    key order. *)
Fixpoint insert (k : double) (v : V) (m : t) : t :=
  match m with
  | [] => [(k, v)]
  | (k', v') :: m' =>
      if Double.ltb k k' then (k, v) :: m
      else (k', v') :: insert k v m'
  end.

(** [m[k]] as an lvalue: the entry is created from the default value
    when the key is absent. *)
Definition subscript (default : V) (k : double) (m : t) : t :=
  match find k m with
  | Some _ => m
  | None => insert k default m
  end.

(** Assignment through the reference [m[k]] returned earlier. *)
Fixpoint modify (k : double) (f : V -> V) (m : t) : t :=
  match m with
  | [] => []
  | (k', v) :: m' =>
      if equiv k k' then (k', f v) :: m' else (k', v) :: modify k f m'
  end.

(** Insertion of an entry at its place in the key order; an entry with
    the same key is replaced. *)
Fixpoint put (k : double) (v : V) (m : t) : t :=
  match m with
  | [] => [(k, v)]
  | (k', v') :: m' =>
      if Double.ltb k k' then (k, v) :: m
      else if Double.ltb k' k then (k', v') :: put k v m'
      else (k, v) :: m'
  end.

(** [m[k]] as an rvalue. *)
Definition at_default (default : V) (k : double) (m : t) : V :=
  match find k m with
  | Some v => v
  | None => default
  end.

(** Every key of the map is less than [k]. *)
Definition below (k : double) (m : t) : Prop :=
  Forall (fun kv : double * V =>
            Double.ltb (fst kv) k = true /\ Double.ltb k (fst kv) = false)
         m.

Definition size (m : t) : nat := List.length m.
End Map.
Arguments t : clear implicits.
End DoubleMap.

(** ** [std::ifstream], formatted input *)

Module IStream.

Record ifstream : Type := {
  failbit : bool;
  eofbit : bool;
  rdbuf : list ascii   (* the characters not yet read *)
}.

(** Construction from a path: [None] when the file cannot be opened,
    which sets [failbit]. *)
Definition open (contents : option (list ascii)) : ifstream :=
  match contents with
  | Some cs => {| failbit := false; eofbit := false; rdbuf := cs |}
  | None => {| failbit := true; eofbit := false; rdbuf := [] |}
  end.

Definition eof (s : ifstream) : bool := eofbit s.
Definition fail (s : ifstream) : bool := failbit s.   (* [!stream] *)
Definition good (s : ifstream) : bool := negb (failbit s || eofbit s).

Definition isspace (c : ascii) : bool :=
  let n := nat_of_ascii c in
  Nat.eqb n 32 || (Nat.leb 9 n && Nat.leb n 13).

Definition isdigit (c : ascii) : bool :=
  let n := nat_of_ascii c in
  Nat.leb 48 n && Nat.leb n 57.

Definition issign (c : ascii) : bool :=
  Ascii.eqb c "+" || Ascii.eqb c "-".

Definition ispoint (c : ascii) : bool := Ascii.eqb c ".".

Definition isexp (c : ascii) : bool :=
  Ascii.eqb c "e" || Ascii.eqb c "E".

Fixpoint skipws (cs : list ascii) : list ascii :=
  match cs with
  | c :: cs' => if isspace c then skipws cs' else cs
  | [] => []
  end.

(** What the number scanner has seen so far. *)
Record scan_state : Type := {
  sign_ok : bool;          (* at the start, or just after the exponent mark *)
  found_mantissa : bool;
  found_dec : bool;
  found_sci : bool
}.

Definition scan_init : scan_state :=
  {| sign_ok := true; found_mantissa := false;
     found_dec := false; found_sci := false |}.

(** The next state when the character may continue the field. *)
Definition scan_step (st : scan_state) (c : ascii) : option scan_state :=
  if isdigit c then
    Some {| sign_ok := false; found_mantissa := true;
            found_dec := found_dec st; found_sci := found_sci st |}
  else if issign c then
    if sign_ok st then
      Some {| sign_ok := false; found_mantissa := found_mantissa st;
              found_dec := found_dec st; found_sci := found_sci st |}
    else None
  else if ispoint c then
    if negb (found_dec st) && negb (found_sci st) then
      Some {| sign_ok := false; found_mantissa := found_mantissa st;
              found_dec := true; found_sci := found_sci st |}
    else None
  else if isexp c then
    if negb (found_sci st) && found_mantissa st then
      Some {| sign_ok := true; found_mantissa := true;
              found_dec := found_dec st; found_sci := true |}
    else None
  else None.

(** Accumulates the longest field: the field, the characters left, and
    whether the end of the file was reached while scanning. *)
Fixpoint scan (st : scan_state) (cs : list ascii)
  : list ascii * list ascii * bool :=
  match cs with
  | [] => ([], [], true)
  | c :: cs' =>
      match scan_step st c with
      | Some st' =>
          let '(field, rest, ateof) := scan st' cs' in
          (c :: field, rest, ateof)
      | None => ([], cs, false)
      end
  end.

Fixpoint span_digits (cs : list ascii) : list ascii * list ascii :=
  match cs with
  | c :: cs' =>
      if isdigit c
      then let '(ds, rest) := span_digits cs' in (c :: ds, rest)
      else ([], cs)
  | [] => ([], [])
  end.

Definition digit_value (c : ascii) : Z := Z.of_nat (nat_of_ascii c) - 48.

Definition Z_of_digits (ds : list ascii) : Z :=
  fold_left (fun acc c => 10 * acc + digit_value c) ds 0.

Definition take_sign (cs : list ascii) : bool * list ascii :=
  match cs with
  | c :: cs' =>
      if Ascii.eqb c "-" then (true, cs')
      else if Ascii.eqb c "+" then (false, cs')
      else (false, cs)
  | [] => (false, [])
  end.

(** The value of an accumulated field, infinite when it is too large;
    [None] when the field is not a complete decimal number. *)
Definition parseDecimal (field : list ascii) : option double :=
  let '(neg, r0) := take_sign field in
  let '(ip, r1) := span_digits r0 in
  let '(fp, r2) :=
    match r1 with
    | c :: r => if ispoint c then span_digits r else ([], r1)
    | [] => ([], [])
    end in
  match ip ++ fp with
  | [] => None
  | ds =>
      let m := Z_of_digits ds in
      let scale := - Z.of_nat (List.length fp) in
      match r2 with
      | [] => Some (Double.of_decimal neg m scale)
      | c :: r3 =>
          if isexp c then
            let '(eneg, r4) := take_sign r3 in
            let '(ed, r5) := span_digits r4 in
            match ed, r5 with
            | _ :: _, [] =>
                let x := Z_of_digits ed in
                Some (Double.of_decimal neg m
                        ((if eneg then - x else x) + scale))
            | _, _ => None
            end
          else None
      end
  end.

(** Conversion of an accumulated field; [None] when the field is not a
    complete decimal number or its value is out of range. *)
Definition strtod (field : list ascii) : option double :=
  match parseDecimal field with
  | Some v => if Double.is_infinite v then None else Some v
  | None => None
  end.

(** What a failed conversion stores in its target: the largest finite
    value, with its sign, for a number out of range, and zero for a
    field that is not a number. *)
Definition valueOnFailure (field : list ascii) : double :=
  match parseDecimal field with
  | Some (S754_infinity sign) =>
      if sign then Double.opp Double.max_value else Double.max_value
  | _ => Double.zero
  end.

(** [stream >> x] for a [double] x: the stream afterwards and the value
    stored in x, [None] when x is left alone.
    A stream that is not good only gets its [failbit] set, and so does
    one on which skipping the white space reaches the end of the text,
    which sets [eofbit] too: in both cases x is left alone. Once a field
    has been scanned x is assigned: the number, or with [failbit] what
    [valueOnFailure] gives. Reaching the end of the text while the
    field is scanned sets [eofbit]. *)
Definition extract (s : ifstream) : ifstream * option double :=
  if good s then
    match skipws (rdbuf s) with
    | [] => ({| failbit := true; eofbit := true; rdbuf := [] |}, None)
    | cs =>
        let '(field, rest, ateof) := scan scan_init cs in
        match strtod field with
        | Some v =>
            ({| failbit := false; eofbit := ateof; rdbuf := rest |}, Some v)
        | None =>
            ({| failbit := true; eofbit := ateof; rdbuf := rest |},
             Some (valueOnFailure field))
        end
    end
  else ({| failbit := true; eofbit := eofbit s; rdbuf := rdbuf s |}, None).

End IStream.

(** ** The unit test *)

Module UnitTest.
Import Double IStream.

(** [State] and its subclass [CartesianElements] hold the vector
    [state], of a size fixed at run time. *)
Record State : Type := { state : list double }.

(** Modelled from the spec: the constructor of class State, declared
    in a header that is not in this file. The data model gives the
    base class no component of its own: a fresh [State] holds the
    empty vector. *)
Definition State_default : State := {| state := [] |}.

(** Modelled from the spec: the constructor of class
    CartesianElements, declared in a header that is not in this file.
    The data model (section 3) gives a Cartesian state six scalar
    components; a fresh object holds six zeros. *)
Definition CartesianElements_default : State :=
  {| state := repeat zero 6 |}.

Fixpoint update_nth (i : nat) (v : double) (l : list double) : list double :=
  match l, i with
  | [], _ => []
  | _ :: l', O => v :: l'
  | x :: l', S i' => x :: update_nth i' v l'
  end.

(** [s.state( i ) = v] and [s.state( i )]; reading out of range has no
    defined result. *)
Definition setState (i : nat) (v : double) (s : State) : State :=
  {| state := update_nth i v (state s) |}.
Definition getState (i : nat) (s : State) : option double :=
  nth_error (state s) i.

Inductive PredefinedPlanets : Type := earth.

(** The settings a [SeriesPropagator] holds once the test has called
    its setters. *)
Record SeriesPropagator : Type := {
  seriesPropagationStart : double;
  seriesPropagationEnd : double;
  fixedOutputInterval : double;
  centralBody : PredefinedPlanets;
  initialState : State
}.

(** What the test calls and this file does not define. *)
Record Collaborators : Type := {
  ROOT_PATH : string;
  convertKilometersToMeters : list double -> list double;
  convertMetersToKilometers : list double -> list double;
  computeAbsoluteValue : double -> double;
  (* [execute( )], then [getPropagationHistoryAtFixedOutputIntervals] *)
  propagationHistory : SeriesPropagator -> DoubleMap.t State
}.

(** How a run of the test ends. *)
Inductive run (A : Type) : Type :=
| Returns (a : A)
| OutOfFuel          (* still looping when the fuel is spent *)
| Undefined.         (* a vector was read out of range *)
Arguments Returns {A} a.
Arguments OutOfFuel {A}.
Arguments Undefined {A}.

(** *** Loading the benchmark data *)

Record loader : Type := {
  twoBodyKeplerBenchmarkFile : ifstream;
  benchmarkKeplerPropagationHistory : DoubleMap.t State;
  elapsedTime : double;
  twoBodyKeplerDataCounter : Z
}.

Definition c3600 : double := of_Z 3600.

(** The key of the row being read: [twoBodyKeplerDataCounter * 3600.0]. *)
Definition benchmarkKey (counter : Z) : double := mul (of_Z counter) c3600.

(** [file >> history[ counter * 3600.0 ].state( i )]: the entry is
    looked up, and created if absent, before the extraction runs. *)
Definition storeComponent (counter : Z)
    (st : ifstream * DoubleMap.t State) (i : nat)
  : ifstream * DoubleMap.t State :=
  let '(file, history) := st in
  let key := benchmarkKey counter in
  let history1 := DoubleMap.subscript CartesianElements_default key history in
  let '(file', r) := extract file in
  (file',
   match r with
   | Some v => DoubleMap.modify key (setState i v) history1
   | None => history1
   end).

(** One pass through the body of the [while] loop. *)
Definition loadRow (l : loader) : loader :=
  let '(file1, r) := extract (twoBodyKeplerBenchmarkFile l) in
  let elapsed := match r with Some v => v | None => elapsedTime l end in
  let counter := twoBodyKeplerDataCounter l in
  let '(file2, history) :=
    fold_left (storeComponent counter) (seq 0 6)
              (file1, benchmarkKeplerPropagationHistory l) in
  {| twoBodyKeplerBenchmarkFile := file2;
     benchmarkKeplerPropagationHistory := history;
     elapsedTime := elapsed;
     twoBodyKeplerDataCounter := uint_succ counter |}.

(** [while ( !file.eof( ) ) { ... }]; [None] when the fuel runs out
    before [eof()] holds. *)
Fixpoint loadLoop (fuel : nat) (l : loader) : option loader :=
  match fuel with
  | O => None
  | S fuel' =>
      if eof (twoBodyKeplerBenchmarkFile l) then Some l
      else loadLoop fuel' (loadRow l)
  end.

Definition loadStart (file : ifstream) : loader :=
  {| twoBodyKeplerBenchmarkFile := file;
     benchmarkKeplerPropagationHistory := DoubleMap.empty;
     elapsedTime := zero;
     twoBodyKeplerDataCounter := 0 |}.

(** *** The steps of the test *)

Definition relativePathToBenchmarkData : string :=
  "Astrodynamics/Propagators/twoBodyKeplerData.dat".

Definition couldNotBeOpened : string :=
  "Error: Two-body Kepler benchmark data file could not be opened.".

Definition inconsistentResults : string :=
  ("The Kepler propagator does not produce "
   ++ "consistent results, as running a simulation with "
   ++ "does not yield the same results as the benchmark data "
   ++ "given the same initial condition.")%string.

Definition toleranceBetweenBenchmarkAndSimulationData : double :=
  of_decimal false 1 (-6).

Section Test.
Variable env : Collaborators.

(** Opening the file and the check that follows: what is written to
    [cerr]. Nothing else happens when the file could not be opened. *)
Definition openBenchmark (contents : option (list ascii))
  : ifstream * list string :=
  let file := open contents in
  (file,
   if fail file
   then [couldNotBeOpened;
         (ROOT_PATH env ++ relativePathToBenchmarkData)%string]
   else []).

(** Position in km and velocity in km/s, converted to metres. *)
Definition stateOfAsterix : State :=
  {| state := convertKilometersToMeters env
                [of_decimal false 675 1; zero; zero;
                 zero; of_decimal false 80595973215 (-10); zero] |}.

Definition seriesPropagator : SeriesPropagator :=
  {| seriesPropagationStart := zero;
     seriesPropagationEnd := of_Z 86400;
     fixedOutputInterval := of_Z 3600;
     centralBody := earth;
     initialState := stateOfAsterix |}.

(** The propagation history, with every state converted to km. *)
Definition asterixKeplerPropagationHistory : DoubleMap.t State :=
  map (fun entry : double * State =>
         (fst entry,
          {| state := convertMetersToKilometers env (state (snd entry)) |}))
      (propagationHistory env seriesPropagator).

Section Comparison.
Variable benchmark : DoubleMap.t State.

(** One term of the inner sum. The inner loop declares its own [i],
    which both selects the component and, times the interval, the
    key of the two histories. A key that is absent reads as the
    default value of the map; the entry [operator[]] creates on
    the way holds that same value, so it is not recorded. *)
Definition differenceAt (i : nat) : option double :=
  let key := mul (of_Z (Z.of_nat i)) (fixedOutputInterval seriesPropagator) in
  match getState i (DoubleMap.at_default State_default key
                      asterixKeplerPropagationHistory),
        getState i (DoubleMap.at_default CartesianElements_default key
                      benchmark) with
  | Some a, Some b => Some (computeAbsoluteValue env (sub a b))
  | _, _ => None
  end.

Fixpoint sumDifferences (indices : list nat)
    (differenceKeplerData : double) : option double :=
  match indices with
  | [] => Some differenceKeplerData
  | i :: rest =>
      match differenceAt i with
      | Some d => sumDifferences rest (add differenceKeplerData d)
      | None => None
      end
  end.

(** [for ( unsigned int i = 0; i < start / interval; i++ )]. *)
Fixpoint comparisonLoop (fuel : nat) (i : Z)
    (isKeplerPropagatorErroneous : bool) (cerr : list string)
  : run (bool * list string) :=
  match fuel with
  | O => OutOfFuel
  | S fuel' =>
      if ltb (of_Z i)
             (div (seriesPropagationStart seriesPropagator)
                  (fixedOutputInterval seriesPropagator))
      then
        match sumDifferences (seq 0 6) zero with
        | None => Undefined
        | Some differenceKeplerData =>
            if ltb toleranceBetweenBenchmarkAndSimulationData
                   differenceKeplerData
            then comparisonLoop fuel' (uint_succ i) true
                   (cerr ++ [inconsistentResults])
            else comparisonLoop fuel' (uint_succ i)
                   isKeplerPropagatorErroneous cerr
        end
      else Returns (isKeplerPropagatorErroneous, cerr)
  end.
End Comparison.

(** [testKeplerPropagator( )]: the value returned and the lines
    written to [cerr]. [contents] is the text of the benchmark file,
    [None] when it cannot be opened. Closing the file and the
    bookkeeping of bodies and planets leave no trace in the result;
    the propagation itself is [propagationHistory]. *)
Definition testKeplerPropagator (fuel : nat)
    (contents : option (list ascii)) : run (bool * list string) :=
  let isKeplerPropagatorErroneous := false in
  let '(file, cerr) := openBenchmark contents in
  match loadLoop fuel (loadStart file) with
  | None => OutOfFuel
  | Some loaded =>
      comparisonLoop (benchmarkKeplerPropagationHistory loaded)
        fuel 0 isKeplerPropagatorErroneous cerr
  end.
End Test.

End UnitTest.

(** ** The propagation design

    The classes the test drives ([SeriesPropagator], [KeplerPropagator],
    [NewtonRaphson]) and the element conversions are defined in other
    files of the repository. They are modelled here from their
    specification: the control flow and the error handling are written
    out, the closed-form relations the specification only names are
    fields of [Formulas]. *)

Module Design.
Import Double.

(** Modelled from the spec: the error taxonomy of section 7. *)
Inductive Error : Type :=
| InvalidConfigurationError
| DegenerateOrbitError
| ConvergenceError.

(** Modelled from the spec: a step that can fail returns its value or
    one of the errors of section 7, which the caller sees. *)
Inductive result (A : Type) : Type :=
| Ok (a : A)
| Err (e : Error).
Arguments Ok {A} a.
Arguments Err {A} e.

Definition bind {A B : Type} (r : result A) (k : A -> result B) : result B :=
  match r with
  | Ok a => k a
  | Err e => Err e
  end.

Notation "x <- r ;; k" := (bind r (fun x => k))
  (at level 61, r at next level, right associativity).

(** Modelled from the spec: CartesianState of section 3. *)
Record CartesianState : Type := {
  x : double; y : double; z : double;
  xdot : double; ydot : double; zdot : double
}.

(** Modelled from the spec: KeplerianElements of section 3. *)
Record KeplerianElements : Type := {
  semiMajorAxis : double;
  eccentricity : double;
  inclination : double;
  rightAscensionOfAscendingNode : double;
  argumentOfPeriapsis : double;
  trueAnomaly : double
}.

(** Modelled from the spec: step 4 of section 4.3, the elements with a
    new true anomaly and everything else held fixed. *)
Definition withTrueAnomaly (el : KeplerianElements) (nu : double)
  : KeplerianElements :=
  {| semiMajorAxis := semiMajorAxis el;
     eccentricity := eccentricity el;
     inclination := inclination el;
     rightAscensionOfAscendingNode := rightAscensionOfAscendingNode el;
     argumentOfPeriapsis := argumentOfPeriapsis el;
     trueAnomaly := nu |}.

(** Modelled from the spec: OrbitType of section 3. *)
Inductive OrbitType : Type := circular | elliptical | parabolic | hyperbolic.

(** Modelled from the spec: the configuration inputs of the solver of
    section 4.2 (class NewtonRaphson is not in this file), a tolerance
    and a cap on the iterations, with the defaults given there. *)
Record SolverConfiguration : Type := {
  tolerance : double;
  maximumIterations : nat
}.

(** Modelled from the spec: the documented defaults of section 4.2,
    tolerance 1e-12 and a cap of 100 iterations. *)
Definition defaultSolverConfiguration : SolverConfiguration :=
  {| tolerance := of_decimal false 1 (-12); maximumIterations := 100 |}.

(** Modelled from the spec: the elementary functions and the relations
    of two-body motion that sections 4.1 to 4.3 name without giving
    them (the conversions and the propagator are not in this file);
    they are left open. *)
Record Formulas : Type := {
  sin : double -> double;
  cos : double -> double;
  sinh : double -> double;
  cosh : double -> double;
  cartesianToKeplerian : CartesianState -> double -> result KeplerianElements;
  keplerianToCartesian : KeplerianElements -> double -> CartesianState;
  classify : double -> OrbitType;
  meanMotion : OrbitType -> KeplerianElements -> double -> double;
  meanAnomalyOfTrue : OrbitType -> double -> double -> double;
  wrapToPrincipalRange : double -> double;
  hyperbolicSeed : double -> double -> double;
  barker : double -> double;
  trueAnomalyOfEccentric : OrbitType -> double -> double -> double
}.

(** Modelled from the spec: what the root finder of section 4.2 is
    given, the function, its derivative and the initial guess. *)
Record RootProblem : Type := {
  residual : double -> double;
  derivative : double -> double;
  seed : double
}.

(** Modelled from the spec: the Newton-Raphson update of section 4.2,
    E_{n+1} = E_n - f(E_n)/f'(E_n) (class NewtonRaphson is not in this
    file). *)
Definition newtonStep (p : RootProblem) (E : double) : double :=
  sub E (div (residual p E) (derivative p E)).

(** The [n]-th iterate E_n from the seed E_0. *)
Fixpoint iterate (p : RootProblem) (n : nat) : double :=
  match n with
  | O => seed p
  | S n' => newtonStep p (iterate p n')
  end.

(** Modelled from the spec: the Newton-Raphson iteration of section
    4.2 (class NewtonRaphson is not in this file): iterate until
    |f(E_n)| < tolerance; fail with ConvergenceError when the iteration
    cap is exceeded without satisfying the tolerance. [remaining] is
    the number of iterations still allowed. *)
Fixpoint newtonRaphsonFrom (p : RootProblem) (tol : double)
    (remaining : nat) (E : double) : result double :=
  if ltb (abs (residual p E)) tol then Ok E
  else match remaining with
       | O => Err ConvergenceError
       | S remaining' =>
           newtonRaphsonFrom p tol remaining' (newtonStep p E)
       end.

(** Modelled from the spec: the root finder of section 4.2 run from
    the initial guess under the configured tolerance and cap. *)
Definition newtonRaphson (c : SolverConfiguration) (p : RootProblem)
  : result double :=
  newtonRaphsonFrom p (tolerance c) (maximumIterations c) (seed p).

Section Propagation.
Variable F : Formulas.
Variable solver : SolverConfiguration.

(** Modelled from the spec: the Kepler-type equation of section 4.2
    for each orbit type (the Kepler-equation solver is not in this
    file). Elliptical: M = E - e sin E, seed M. Hyperbolic:
    M = e sinh H - H. [None] where no iteration is needed: e exactly
    0, and the parabolic case. *)
Definition keplerProblem (ty : OrbitType) (e M : double)
  : option RootProblem :=
  match ty with
  | circular | elliptical =>
      if eqb e zero then None
      else Some {| residual := fun E => sub (sub E (mul e (sin F E))) M;
                   derivative := fun E => sub (of_Z 1) (mul e (cos F E));
                   seed := M |}
  | hyperbolic =>
      Some {| residual := fun H => sub (sub (mul e (sinh F H)) H) M;
              derivative := fun H => sub (mul e (cosh F H)) (of_Z 1);
              seed := hyperbolicSeed F M e |}
  | parabolic => None
  end.

(** Modelled from the spec: the Kepler-equation solver of section
    4.2 (not in this file): Newton-Raphson where the equation is
    transcendental, E = M for e exactly 0, Barker's closed form for
    the parabola. *)
Definition solveKepler (ty : OrbitType) (e M : double) : result double :=
  match keplerProblem ty e M with
  | Some p => newtonRaphson solver p
  | None =>
      match ty with
      | parabolic => Ok (barker F M)
      | _ => Ok M
      end
  end.

(** Modelled from the spec: step 2 of section 4.3 (class
    KeplerPropagator is not in this file): M(t) = M(0) + n *
    elapsedTime, wrapped into the principal range for closed orbits
    only. *)
Definition advancedMeanAnomaly (el : KeplerianElements)
    (mu elapsedTime : double) : double :=
  let ty := classify F (eccentricity el) in
  let n := meanMotion F ty el mu in
  let M0 := meanAnomalyOfTrue F ty (eccentricity el) (trueAnomaly el) in
  let M := add M0 (mul n elapsedTime) in
  match ty with
  | circular | elliptical => wrapToPrincipalRange F M
  | parabolic | hyperbolic => M
  end.

(** Modelled from the spec: KeplerPropagator.propagate, steps 1 to 5
    of section 4.3 (class KeplerPropagator is not in this file). A
    failure of the conversion or of the solver is the result. *)
Definition propagate (initialState : CartesianState)
    (mu elapsedTime : double) : result CartesianState :=
  el <- cartesianToKeplerian F initialState mu ;;
  let ty := classify F (eccentricity el) in
  let M := advancedMeanAnomaly el mu elapsedTime in
  E <- solveKepler ty (eccentricity el) M ;;
  let nu := trueAnomalyOfEccentric F ty (eccentricity el) E in
  Ok (keplerianToCartesian F (withTrueAnomaly el nu) mu).

(** Modelled from the spec: what the Configured state of section 4.4
    accepts (class SeriesPropagator is not in this file). *)
Record Configuration : Type := {
  start : double;
  finish : double;                (* the end time *)
  interval : double;
  initialState : CartesianState;
  gravitationalParameter : double
}.

(** Modelled from the spec: the states of the driver in section 4.4
    once [execute] has been called. *)
Inductive Status : Type :=
| Running                              (* the fuel ran out between ticks *)
| Completed
| Failed (e : Error) (tick : option double).

(** Modelled from the spec: what a run of section 4.4 leaves, its
    final state and the trajectory history; with them the calls made to
    the single-step propagator, in order, each with the state and the
    elapsed time it was given. *)
Record Run : Type := {
  status : Status;
  history : DoubleMap.t CartesianState;
  calls : list (CartesianState * double)
}.

(** Modelled from the spec: the invariant of the Configured state in
    section 4.4 (class SeriesPropagator is not in this file):
    interval > 0 and end time > start time. *)
Definition validConfiguration (c : Configuration) : bool :=
  ltb zero (interval c) && ltb (start c) (finish c).

(** Modelled from the spec: the sample times of section 4.4, start,
    start + interval, start + 2 * interval, ..., each derived from
    the integer sample index (section 9). *)
Definition tick (c : Configuration) (k : nat) : double :=
  add (start c) (mul (of_Z (Z.of_nat k)) (interval c)).

(** Modelled from the spec: the elapsed time (tick - start) of
    section 4.4. *)
Definition elapsedAt (c : Configuration) (k : nat) : double :=
  sub (tick c k) (start c).

(** Modelled from the spec: the Running state of section 4.4 (class
    SeriesPropagator is not in this file): for each tick up to and
    including the last one not after the end time, propagate the
    original initial state by tick - start and insert the result
    keyed by the tick; a failing step aborts the run, which keeps the
    history so far with the error and the tick. *)
Fixpoint sample (c : Configuration) (fuel : nat) (k : nat)
    (h : DoubleMap.t CartesianState)
    (log : list (CartesianState * double)) : Run :=
  match fuel with
  | O => {| status := Running; history := h; calls := log |}
  | S fuel' =>
      if leb (tick c k) (finish c) then
        let log' := log ++ [(initialState c, elapsedAt c k)] in
        match propagate (initialState c) (gravitationalParameter c)
                        (elapsedAt c k) with
        | Ok s => sample c fuel' (S k) (DoubleMap.put (tick c k) s h) log'
        | Err e =>
            {| status := Failed e (Some (tick c k));
               history := h; calls := log' |}
        end
      else {| status := Completed; history := h; calls := log |}
  end.

(** The entry was computed from the original initial state, for the
    elapsed time of its own tick. *)
Definition fromInitialState (c : Configuration)
    (entry : double * CartesianState) : Prop :=
  exists k,
    fst entry = tick c k
    /\ propagate (initialState c) (gravitationalParameter c)
         (sub (fst entry) (start c)) = Ok (snd entry).

(** The call returned a state. *)
Definition callSucceeds (c : Configuration)
    (call : CartesianState * double) : Prop :=
  exists s,
    propagate (fst call) (gravitationalParameter c) (snd call) = Ok s.

(** The calls for the samples 0 to n - 1: each on the original
    initial state, with the time elapsed since the start. *)
Definition callsUpTo (c : Configuration) (n : nat)
  : list (CartesianState * double) :=
  map (fun k => (initialState c, elapsedAt c k)) (seq 0 n).

(** Modelled from the spec: SeriesPropagationDriver.execute of
    section 4.4 (class SeriesPropagator is not in this file): a
    configuration that breaks the invariant is rejected with
    InvalidConfigurationError and nothing is run. *)
Definition execute (fuel : nat) (c : Configuration) : Run :=
  if validConfiguration c then sample c fuel 0 DoubleMap.empty []
  else {| status := Failed InvalidConfigurationError None;
          history := DoubleMap.empty; calls := [] |}.
End Propagation.

End Design.

(** ** Layout of a benchmark file

    A table of numbers separated by white space, seven to a row: the
    elapsed time, then the six components of the state. A file is
    described by its fields, each with the white space in front of it,
    and by the white space after the last field. *)

Module BenchmarkFile.
Import Double IStream UnitTest.

Record field : Type := {
  leading : list ascii;
  text : list ascii
}.

Definition row : Type := list field.

Definition renderField (f : field) : list ascii := leading f ++ text f.
Definition renderRow (r : row) : list ascii := List.concat (map renderField r).
Definition renderRows (rows : list row) : list ascii :=
  List.concat (map renderRow rows).
Definition render (rows : list row) (trailing : list ascii) : list ascii :=
  renderRows rows ++ trailing.

Definition blank (cs : list ascii) : bool := forallb isspace cs.

(** Every character continues the number started before it. *)
Fixpoint accepted (st : scan_state) (cs : list ascii) : bool :=
  match cs with
  | [] => true
  | c :: cs' =>
      match scan_step st c with
      | Some st' => accepted st' cs'
      | None => false
      end
  end.

(** The value of a text that is one complete number. *)
Definition numeral (cs : list ascii) : option double :=
  if accepted scan_init cs then strtod cs else None.

Definition isNumeral (cs : list ascii) : bool :=
  match numeral cs with Some _ => true | None => false end.

Definition separated (f : field) : bool :=
  match leading f with [] => false | _ :: _ => true end.

Definition wellFormedField (f : field) : bool :=
  blank (leading f) && isNumeral (text f).

(** Rows of seven numbers; white space between any two fields, and
    nothing but white space elsewhere. *)
Definition wellFormed (rows : list row) (trailing : list ascii) : bool :=
  forallb (fun r => Nat.eqb (List.length r) 7) rows
  && forallb wellFormedField (List.concat rows)
  && forallb separated (tl (List.concat rows))
  && blank trailing.

Definition value (f : field) : double :=
  match numeral (text f) with Some v => v | None => zero end.

(** The state a row gives: the six numbers after the elapsed time. *)
Definition rowState (r : row) : State := {| state := map value (tl r) |}.

(** The entries the rows give, the first row being sample [k]. *)
Fixpoint entries (k : Z) (rows : list row) : DoubleMap.t State :=
  match rows with
  | [] => []
  | r :: rows' => (benchmarkKey k, rowState r) :: entries (k + 1) rows'
  end.

(** The last number of the file is its last character: the stream is
    at its end as soon as the last row has been read. *)
Definition endsAfterLastRow (rows : list row) (trailing : list ascii) : bool :=
  match rows, trailing with
  | _ :: _, [] => true
  | _, _ => false
  end.

(** White space, or the end of the text, stops the number scanner. *)
Definition stops (rest : list ascii) : bool :=
  match rest with
  | [] => true
  | c :: _ => isspace c
  end.

Definition atEnd (rest : list ascii) : bool :=
  match rest with [] => true | _ :: _ => false end.

(** A stream without failure, with [rest] still to read. *)
Definition streamAt (ateof : bool) (rest : list ascii) : ifstream :=
  {| failbit := false; eofbit := ateof; rdbuf := rest |}.

(** What reading a row does to the history, whatever the history is:
    component [i] of the entry at the key is assigned the [i]-th
    value, the entry being created when the key is new. *)
Definition storeValues (key : double) (values : list double)
    (h : DoubleMap.t State) : DoubleMap.t State :=
  fold_left
    (fun h iv =>
       DoubleMap.modify key (setState (fst iv) (snd iv))
         (DoubleMap.subscript CartesianElements_default key h))
    (combine (seq 0 6) values) h.

Fixpoint storeRows (k : Z) (rows : list row) (h : DoubleMap.t State)
  : DoubleMap.t State :=
  match rows with
  | [] => h
  | r :: rows' =>
      storeRows (uint_succ k) rows'
        (storeValues (benchmarkKey k) (map value (tl r)) h)
  end.

Fixpoint counterAfter (k : Z) (rows : list row) : Z :=
  match rows with
  | [] => k
  | _ :: rows' => counterAfter (uint_succ k) rows'
  end.

(** What follows the fields [r] of a row stops the scanner. *)
Definition follows (r : row) (rest : list ascii) : Prop :=
  Forall (fun f => wellFormedField f = true /\ separated f = true) r
  /\ stops rest = true.

(** The stream once an extraction has failed at the end of the file. *)
Definition streamAtEnd : ifstream :=
  {| failbit := true; eofbit := true; rdbuf := [] |}.

(** The history once the whole table has been read, whatever the
    history [h] before: the rows, and one more entry when the stream is
    not at its end after the last row. *)
Definition loadedHistory (k : Z) (rows : list row) (trailing : list ascii)
    (h : DoubleMap.t State) : DoubleMap.t State :=
  if endsAfterLastRow rows trailing then storeRows k rows h
  else DoubleMap.subscript CartesianElements_default
         (benchmarkKey (counterAfter k rows)) (storeRows k rows h).

(** Every key of the history is the key of a counter below [k]. *)
Definition keysBelow (k : Z) (h : DoubleMap.t State) : Prop :=
  Forall (fun kv : double * State =>
            exists j, 0 <= j < k /\ fst kv = benchmarkKey j) h.

(** The entry the pass after the last row leaves behind. *)
Definition spuriousEntry (rows : list row) : double * State :=
  (benchmarkKey (Z.of_nat (List.length rows)), CartesianElements_default).

(** A row of seven well-formed fields, separated from one another. *)
Definition rowOk (r : row) : Prop :=
  List.length r = 7%nat
  /\ Forall (fun f => wellFormedField f = true) r
  /\ Forall (fun f => separated f = true) (tl r).

(** A row that is not the first of the file: white space in front. *)
Definition laterRowOk (r : row) : Prop :=
  rowOk r /\ Forall (fun f => separated f = true) r.

(** Fields from a text that uses one space before each number but the
    first of the file; for writing examples. *)
Definition fieldOf (first : bool) (s : string) : field :=
  {| leading := if first then [] else [" "%char];
     text := list_ascii_of_string s |}.
End BenchmarkFile.

(** ** Sample inputs *)

Module Samples.
Import Double IStream UnitTest BenchmarkFile.

(** A row of a table from its columns: one space between columns, a
    new line in front of every row but the first. *)
Definition tableRow (first : bool) (columns : list string) : row :=
  match columns with
  | [] => []
  | c :: cs =>
      {| leading := if first then [] else ["010"%char];
         text := list_ascii_of_string c |}
      :: map (fieldOf false) cs
  end.

(** The initial state of the test, as the first row of a table. *)
Definition initialRow : row :=
  tableRow true ["0"; "6750"; "0"; "0"; "0"; "8.0595973215"; "0"]%string.

(** A second row whose elapsed-time column is not 3600. *)
Definition secondRow : row :=
  tableRow false
    ["10"; "-1320.5"; "6608.25"; "0"; "-7.9"; "-1.5e0"; "0"]%string.

Definition twoRows : list row := [initialRow; secondRow].

Definition newline : list ascii := ["010"%char].

(** The helpers of the test, as their names say; the propagator is
    the argument. *)
Definition collaborators
    (propagator : SeriesPropagator -> DoubleMap.t State) : Collaborators :=
  {| ROOT_PATH := "/tudat/";
     convertKilometersToMeters := map (fun v => mul v (of_Z 1000));
     convertMetersToKilometers := map (fun v => div v (of_Z 1000));
     computeAbsoluteValue := abs;
     propagationHistory := propagator |}.

(** A propagator that leaves the body where it started. *)
Definition standingStill (s : SeriesPropagator) : DoubleMap.t State :=
  [(seriesPropagationStart s, initialState s)].

(** A propagator whose first sample is one kilometre off in x. *)
Definition oneKilometreOff (s : SeriesPropagator) : DoubleMap.t State :=
  [(seriesPropagationStart s,
    setState 0 (add (nth 0 (state (initialState s)) zero) (of_Z 1000))
             (initialState s))].
End Samples.

(** ** Sample propagation settings *)

Module DesignSamples.
Import Double Design.

Definition half : double := of_decimal false 5 (-1).

Definition restingState : CartesianState :=
  {| x := of_Z 6750000; y := zero; z := zero;
     xdot := zero; ydot := of_decimal false 80595973215 (-7); zdot := zero |}.

Definition someElements : KeplerianElements :=
  {| semiMajorAxis := of_Z 7000000; eccentricity := half;
     inclination := zero; rightAscensionOfAscendingNode := zero;
     argumentOfPeriapsis := zero; trueAnomaly := zero |}.

(** Stand-ins for the formulas: every orbit is the same ellipse of
    eccentricity 0.5, and the sine is flat. The Kepler residual is then
    E - M, which the seed E = M solves. *)
Definition flatFormulas : Formulas :=
  {| sin := fun _ => zero;
     cos := fun _ => zero;
     sinh := fun _ => zero;
     cosh := fun _ => of_Z 1;
     cartesianToKeplerian := fun _ _ => Ok someElements;
     keplerianToCartesian := fun _ _ => restingState;
     classify := fun _ => elliptical;
     meanMotion := fun _ _ _ => of_decimal false 1 (-3);
     meanAnomalyOfTrue := fun _ _ nu => nu;
     wrapToPrincipalRange := fun M => M;
     hyperbolicSeed := fun M _ => M;
     barker := fun M => M;
     trueAnomalyOfEccentric := fun _ _ E => E |}.

(** The same stand-ins, except that the state shows the true anomaly
    in its x component: the samples of a series differ from tick to
    tick. *)
Definition driftingFormulas : Formulas :=
  {| sin := fun _ => zero;
     cos := fun _ => zero;
     sinh := fun _ => zero;
     cosh := fun _ => of_Z 1;
     cartesianToKeplerian := fun _ _ => Ok someElements;
     keplerianToCartesian :=
       fun el _ =>
         {| x := trueAnomaly el; y := zero; z := zero;
            xdot := zero; ydot := zero; zdot := zero |};
     classify := fun _ => elliptical;
     meanMotion := fun _ _ _ => of_decimal false 1 (-3);
     meanAnomalyOfTrue := fun _ _ nu => nu;
     wrapToPrincipalRange := fun M => M;
     hyperbolicSeed := fun M _ => M;
     barker := fun M => M;
     trueAnomalyOfEccentric := fun _ _ E => E |}.

(** A solver that asks for a residual below zero: it cannot be
    satisfied. *)
Definition unsatisfiableSolver : SolverConfiguration :=
  {| tolerance := zero; maximumIterations := 2 |}.

(** The series of the calibration case. *)
Definition dayByTheHour : Configuration :=
  {| start := zero; finish := of_Z 86400; interval := of_Z 3600;
     initialState := restingState;
     gravitationalParameter := of_decimal false 3986004415 5 |}.

Definition zeroInterval : Configuration :=
  {| start := zero; finish := of_Z 86400; interval := zero;
     initialState := restingState;
     gravitationalParameter := of_decimal false 3986004415 5 |}.
End DesignSamples.

(** ** More about the test: what the statements below are written with *)

Module Coverage.
Import Double IStream UnitTest BenchmarkFile.

(** A character that cannot begin a number and is not white space: a
    letter, a [#], a comma... *)
Definition cannotStartNumber (c : ascii) : bool :=
  negb (isspace c)
  && match scan_step scan_init c with Some _ => false | None => true end.

(** Complete rows at the head of a table: the first may start the file,
    the others have white space in front. *)
Definition tableOk (rows : list row) : Prop :=
  match rows with
  | [] => True
  | r :: rows' => rowOk r /\ Forall laterRowOk rows'
  end.

(** A row cut short: at least the elapsed time, at most five of the six
    components. [first] tells whether it starts the file. *)
Definition partialRowOk (first : bool) (p : row) : Prop :=
  (1 <= List.length p <= 6)%nat
  /\ Forall (fun f => wellFormedField f = true) p
  /\ Forall (fun f => separated f = true) (if first then tl p else p).

(** One assignment [history[ key ].state( i ) = v], the entry being
    created when the key is new; [iv] is the pair of [i] and [v]. *)
Definition storeOne (key : double) (h : DoubleMap.t State)
    (iv : nat * double) : DoubleMap.t State :=
  DoubleMap.modify key (setState (fst iv) (snd iv))
    (DoubleMap.subscript CartesianElements_default key h).

Definition isEmpty {A : Type} (l : list A) : bool :=
  match l with [] => true | _ :: _ => false end.

(** The components read, followed by the zeros the entry was created
    with. *)
Definition padded (values : list double) : list double :=
  values ++ repeat zero (6 - List.length values).

(** What the inner loop of the comparison reads of a history: component
    [i] of the entry at key [i * interval], for [i] from 0 to 5. *)
Definition diagonal (default : State) (interval : double)
    (m : DoubleMap.t State) : list (option double) :=
  map (fun i =>
         getState i
           (DoubleMap.at_default default
              (mul (of_Z (Z.of_nat i)) interval) m))
      (seq 0 6).

(** The conversion applied to every state of the propagation history. *)
Definition inKilometers (env : Collaborators) (s : State) : State :=
  {| state := convertMetersToKilometers env (state s) |}.

(** Six benchmark entries, one an hour, and a propagation with a
    sample an hour; for an example. *)
Definition sixEntries (s : State) : DoubleMap.t State :=
  map (fun i => (benchmarkKey i, s)) [0; 1; 2; 3; 4; 5].

Definition everyHour (s : SeriesPropagator) : DoubleMap.t State :=
  map (fun i => (mul (of_Z i) (fixedOutputInterval s), initialState s))
      [0; 1; 2; 3; 4; 5].

(** A benchmark history that differs from another off the diagonal
    only; for an example. *)
Definition offDiagonal (m : DoubleMap.t State) : DoubleMap.t State :=
  map (fun entry : double * State =>
         (fst entry, setState 1 (of_Z 42) (snd entry)))
      (firstn 1 m)
  ++ skipn 1 m.

End Coverage.

(** ** The order of the keys *)

Module KeyOrder.
Import Double.

(** Where a double that is not a NaN stands in the order [operator<]
    gives: below zero or above, then by exponent and mantissa. The two
    zeros stand together. *)
Definition rank (x : double) : option (Z * Z * Z) :=
  match x with
  | S754_nan => None
  | S754_infinity true => Some (-2, 0, 0)
  | S754_finite true m e => Some (-1, - e, Zneg m)
  | S754_zero _ => Some (0, 0, 0)
  | S754_finite false m e => Some (1, e, Zpos m)
  | S754_infinity false => Some (2, 0, 0)
  end.

Definition lexCompare (a b : Z * Z * Z) : comparison :=
  match fst (fst a) ?= fst (fst b) with
  | Eq =>
      match snd (fst a) ?= snd (fst b) with
      | Eq => snd a ?= snd b
      | c => c
      end
  | c => c
  end.

Definition comparable (x : double) : Prop := rank x <> None.

End KeyOrder.

(** ** What a run of the series driver has sampled *)

Module Runs.
Import Double Design.

(** The number of ticks for which a state was computed: every call but
    the failing one, if one failed. *)
Definition sampled (r : Run) : nat :=
  match status r with
  | Failed _ (Some _) => Nat.pred (List.length (calls r))
  | _ => List.length (calls r)
  end.

(** The first [n] ticks are strictly increasing as doubles: no two of
    them are the same key. *)
Definition ticksIncreasing (c : Configuration) (n : nat) : bool :=
  forallb (fun k => forallb (fun j => ltb (tick c j) (tick c k)) (seq 0 k))
          (seq 0 n).

(** A state is found at tick [k]: the one the propagator returned, from
    the original initial state, for a tick [j] of the run that is the
    same key as tick [k]. *)
Definition storedAtTick (F : Formulas) (solver : SolverConfiguration)
    (c : Configuration) (r : Run) (k : nat) : Prop :=
  exists s j,
    DoubleMap.find (tick c k) (history r) = Some s
    /\ (j < sampled r)%nat
    /\ DoubleMap.equiv (tick c k) (tick c j) = true
    /\ propagate F solver (initialState c) (gravitationalParameter c)
         (elapsedAt c j) = Ok s.

(** A state is found at tick [k], and it is the one the propagator
    returns from the original initial state for the elapsed time of
    tick [k] itself. *)
Definition storedExactly (F : Formulas) (solver : SolverConfiguration)
    (c : Configuration) (r : Run) (k : nat) : Prop :=
  exists s,
    DoubleMap.find (tick c k) (history r) = Some s
    /\ propagate F solver (initialState c) (gravitationalParameter c)
         (elapsedAt c k) = Ok s.

End Runs.

(** * Proofs *)

(** ** Integers in binary64 *)

Module DoubleFacts.
Import Double.

Lemma digits2_pos_log2 p : Zpos (digits2_pos p) = Z.log2 (Zpos p) + 1.
Proof.
  assert (H : forall q, digits2_pos q = Pos.size q)
    by (induction q; simpl; congruence).
  rewrite H. destruct p; simpl; lia.
Qed.

Lemma digits2_bounds p :
  2 ^ (Zpos (digits2_pos p) - 1) <= Zpos p < 2 ^ Zpos (digits2_pos p).
Proof.
  rewrite digits2_pos_log2.
  replace (Z.log2 (Zpos p) + 1 - 1) with (Z.log2 (Zpos p)) by lia.
  apply Z.log2_spec. lia.
Qed.

Lemma digits2_unique p d :
  2 ^ (d - 1) <= Zpos p < 2 ^ d -> 0 < d -> Zpos (digits2_pos p) = d.
Proof.
  intros H Hd. rewrite digits2_pos_log2.
  rewrite (Z.log2_unique (Zpos p) (d - 1)); try lia.
  replace (Z.succ (d - 1)) with d by lia. exact H.
Qed.

Lemma digits2_le_53 x : Zpos x < 2 ^ 53 -> Zpos (digits2_pos x) <= 53.
Proof.
  intros Hx. pose proof (digits2_bounds x) as B.
  destruct (Z_le_gt_dec (Zpos (digits2_pos x)) 53); auto.
  assert (2 ^ 53 <= 2 ^ (Zpos (digits2_pos x) - 1))
    by (apply Z.pow_le_mono_r; lia).
  lia.
Qed.

Lemma iter_xO m d : Zpos (Pos.iter xO m d) = 2 ^ Zpos d * Zpos m.
Proof.
  revert m. induction d using Pos.peano_ind; intro m.
  - reflexivity.
  - rewrite Pos.iter_succ, Pos2Z.inj_succ, Z.pow_succ_r by lia.
    rewrite Pos2Z.inj_xO, IHd. lia.
Qed.

(** Shifting out bits that are all zero loses nothing. *)
Lemma shr_exact p : forall q, 0 <= q ->
  iter_pos shr_1 p (Build_shr_record (2 ^ Zpos p * q) false false)
  = Build_shr_record q false false.
Proof.
  induction p; intros q Hq.
  - replace (2 ^ Z.pos p~1 * q) with (2 * (2 ^ Zpos p * (2 ^ Zpos p * q))).
    2:{ replace (Z.pos p~1) with (1 + Zpos p + Zpos p) by lia.
        rewrite !Z.pow_add_r, Z.pow_1_r by lia. lia. }
    change (iter_pos shr_1 p~1 ?x)
      with (iter_pos shr_1 p (iter_pos shr_1 p (shr_1 x))).
    assert (Hs : shr_1 (Build_shr_record
                          (2 * (2 ^ Z.pos p * (2 ^ Z.pos p * q))) false false)
                 = Build_shr_record
                     (2 ^ Z.pos p * (2 ^ Z.pos p * q)) false false).
    { destruct (2 ^ Z.pos p * (2 ^ Z.pos p * q)); reflexivity. }
    rewrite Hs, IHp, IHp; auto.
    apply Z.mul_nonneg_nonneg; [apply Z.pow_nonneg|]; lia.
  - replace (2 ^ Z.pos p~0 * q) with (2 ^ Zpos p * (2 ^ Zpos p * q)).
    2:{ replace (Z.pos p~0) with (Zpos p + Zpos p) by lia.
        rewrite !Z.pow_add_r by lia. lia. }
    change (iter_pos shr_1 p~0 ?x)
      with (iter_pos shr_1 p (iter_pos shr_1 p x)).
    rewrite IHp, IHp; auto.
    apply Z.mul_nonneg_nonneg; [apply Z.pow_nonneg|]; lia.
  - change (2 ^ 1) with 2. destruct q; reflexivity.
Qed.

(** Rounding a value whose mantissa fits on 53 bits is exact. *)
Lemma binary_round_aux_exact s (m : positive) n e :
  Zpos (digits2_pos m) = 53 -> 0 <= n -> -1074 <= e + n <= 971 ->
  binary_round_aux prec emax s (2 ^ n * Zpos m) e loc_Exact
  = S754_finite s m (e + n).
Proof.
  intros Hd Hn He.
  assert (Hpos : 0 < 2 ^ n) by (apply Z.pow_pos_nonneg; lia).
  assert (Hdig : Zdigits2 (2 ^ n * Zpos m) = 53 + n).
  { assert (Hprod : 0 < 2 ^ n * Zpos m) by nia.
    destruct (2 ^ n * Zpos m) as [|x|x] eqn:E; try lia.
    cbn [Zdigits2]. apply digits2_unique; [|lia].
    rewrite <- E. pose proof (digits2_bounds m) as B. rewrite Hd in B.
    replace (53 + n - 1) with (n + 52) by lia.
    replace (53 + n) with (n + 53) by lia.
    rewrite !Z.pow_add_r by lia. nia. }
  unfold binary_round_aux, shr_fexp. rewrite Hdig.
  unfold fexp, emin, prec, emax, shr_record_of_loc.
  replace (Z.max (53 + n + e - 53) (3 - 1024 - 53) - e) with n by lia.
  assert (Hshr : shr (Build_shr_record (2 ^ n * Zpos m) false false) e n
                 = (Build_shr_record (Zpos m) false false, e + n)).
  { destruct n as [|p|p]; try lia.
    - simpl. rewrite Z.add_0_r. reflexivity.
    - unfold shr. rewrite shr_exact by lia. reflexivity. }
  rewrite Hshr. cbn [shr_m loc_of_shr_record round_nearest_even Zdigits2].
  rewrite Hd.
  replace (Z.max (53 + (e + n) - 53) (3 - 1024 - 53) - (e + n)) with 0 by lia.
  cbn [shr shr_m].
  replace (e + n <=? 1024 - 53) with true by (symmetry; apply Z.leb_le; lia).
  reflexivity.
Qed.

Lemma canon_mant_value x :
  Zpos x < 2 ^ 53 ->
  Zpos (Z.to_pos (2 ^ (53 - Zpos (digits2_pos x)) * Zpos x))
  = 2 ^ (53 - Zpos (digits2_pos x)) * Zpos x.
Proof.
  intros Hx. pose proof (digits2_le_53 x Hx).
  assert (0 < 2 ^ (53 - Zpos (digits2_pos x)))
    by (apply Z.pow_pos_nonneg; lia).
  apply Z2Pos.id. nia.
Qed.

Lemma canon_mant_digits x :
  Zpos x < 2 ^ 53 ->
  Zpos (digits2_pos (Z.to_pos (2 ^ (53 - Zpos (digits2_pos x)) * Zpos x)))
  = 53.
Proof.
  intros Hx. pose proof (digits2_bounds x) as B.
  pose proof (digits2_le_53 x Hx) as L.
  pose proof (canon_mant_value x Hx) as V.
  set (d := Zpos (digits2_pos x)) in *.
  assert (0 < 2 ^ (53 - d)) by (apply Z.pow_pos_nonneg; lia).
  apply digits2_unique; [|lia].
  rewrite V.
  replace (2 ^ (53 - 1)) with (2 ^ (53 - d) * 2 ^ (d - 1))
    by (rewrite <- Z.pow_add_r by lia; f_equal; lia).
  replace (2 ^ 53) with (2 ^ (53 - d) * 2 ^ d)
    by (rewrite <- Z.pow_add_r by lia; f_equal; lia).
  nia.
Qed.

(** An integer below 2^53 converts to its canonical form. *)
Lemma of_Z_canon x : Zpos x < 2 ^ 53 -> of_Z (Zpos x) = canon x.
Proof.
  intros Hx. pose proof (digits2_bounds x) as B.
  pose proof (canon_mant_digits x Hx) as Hm.
  pose proof (digits2_le_53 x Hx) as Hd.
  unfold of_Z, binary_normalize, binary_round, canon.
  set (d := Zpos (digits2_pos x)) in *.
  assert (0 < d) by (unfold d; lia).
  assert (Hp : 0 < 2 ^ (53 - d)) by (apply Z.pow_pos_nonneg; lia).
  unfold fexp, emin, prec, emax, shl_align.
  replace (Z.max (d + 0 - 53) (3 - 1024 - 53) - 0) with (d - 53) by lia.
  replace (Z.max (d + 0 - 53) (3 - 1024 - 53)) with (d - 53) by lia.
  destruct (d - 53) as [|p|p] eqn:E; try lia.
  - replace (53 - d) with 0 in * by lia. rewrite Z.pow_0_r, Z.mul_1_l in *.
    rewrite Pos2Z.id in *.
    pose proof (binary_round_aux_exact false x 0 0 Hm) as R.
    rewrite Z.pow_0_r, Z.mul_1_l in R. apply R; lia.
  - assert (E' : 53 - d = Zpos p) by lia. rewrite E' in *.
    assert (Hz : Zpos (Pos.iter xO x p) = 2 ^ Zpos p * Zpos x)
      by apply iter_xO.
    assert (Hz' : Pos.iter xO x p = Z.to_pos (2 ^ Zpos p * Zpos x))
      by (rewrite <- Hz, Pos2Z.id; reflexivity).
    rewrite Hz'.
    pose proof (binary_round_aux_exact false _ 0 (Zneg p) Hm) as R.
    rewrite Z.pow_0_r, Z.mul_1_l, Z.add_0_r in R. apply R; lia.
Qed.

(** The product of two integers is exact while it stays below 2^53. *)
Lemma mul_of_Z a b :
  Zpos a * Zpos b < 2 ^ 53 ->
  mul (of_Z (Zpos a)) (of_Z (Zpos b)) = of_Z (Zpos a * Zpos b).
Proof.
  intros Hab.
  assert (Ha : Zpos a < 2 ^ 53) by nia.
  assert (Hb : Zpos b < 2 ^ 53) by nia.
  change (Zpos a * Zpos b) with (Zpos (a * b)) in *.
  rewrite !of_Z_canon by assumption.
  pose proof (digits2_bounds a) as Ba. pose proof (digits2_bounds b) as Bb.
  pose proof (digits2_bounds (a * b)) as Bab.
  pose proof (digits2_le_53 _ Ha) as La.
  pose proof (digits2_le_53 _ Hb) as Lb.
  pose proof (digits2_le_53 _ Hab) as Lab.
  pose proof (canon_mant_value _ Ha) as Va.
  pose proof (canon_mant_value _ Hb) as Vb.
  pose proof (canon_mant_value _ Hab) as Vab.
  pose proof (canon_mant_digits _ Hab) as Dab.
  unfold canon, mul, SFmul. cbn [xorb].
  set (da := Zpos (digits2_pos a)) in *.
  set (db := Zpos (digits2_pos b)) in *.
  set (dab := Zpos (digits2_pos (a * b))) in *.
  assert (0 < da) by (unfold da; lia). assert (0 < db) by (unfold db; lia).
  assert (Hn : da + db - 2 < dab).
  { apply (Z.pow_lt_mono_r_iff 2); try lia.
    replace (da + db - 2) with ((da - 1) + (db - 1)) by lia.
    rewrite Z.pow_add_r by lia. rewrite Pos2Z.inj_mul in Bab. nia. }
  set (ma := Z.to_pos (2 ^ (53 - da) * Zpos a)) in *.
  set (mb := Z.to_pos (2 ^ (53 - db) * Zpos b)) in *.
  set (mab := Z.to_pos (2 ^ (53 - dab) * Zpos (a * b))) in *.
  assert (E : Zpos (ma * mb) = 2 ^ (53 + dab - da - db) * Zpos mab).
  { rewrite Pos2Z.inj_mul, Va, Vb, Vab, Pos2Z.inj_mul.
    replace (2 ^ (53 - da) * Zpos a * (2 ^ (53 - db) * Zpos b))
      with (2 ^ (53 - da) * 2 ^ (53 - db) * (Zpos a * Zpos b)) by ring.
    rewrite <- Z.pow_add_r by lia.
    replace (53 - da + (53 - db))
      with ((53 + dab - da - db) + (53 - dab)) by lia.
    rewrite Z.pow_add_r by lia. ring. }
  rewrite E, binary_round_aux_exact; try assumption; try lia.
  f_equal. lia.
Qed.

(** Comparison is antisymmetric. *)
Lemma SFcompare_antisym a b :
  SFcompare b a = option_map CompOpp (SFcompare a b).
Proof.
  destruct a as [sa|sa| |sa ma ea], b as [sb|sb| |sb mb eb];
    try destruct sa; try destruct sb; try reflexivity; cbn;
    rewrite (Z.compare_antisym ea eb); destruct (ea ?= eb); cbn;
    try reflexivity;
    rewrite (Pos.compare_cont_antisym ma mb Eq); reflexivity.
Qed.

(** On integers below 2^53 the order of the doubles is the order of
    the integers. *)
Lemma of_Z_lt x y :
  0 <= x -> x < y -> y < 2 ^ 53 -> SFcompare (of_Z x) (of_Z y) = Some Lt.
Proof.
  intros Hx Hxy Hy.
  destruct y as [|y|y]; try lia.
  rewrite (of_Z_canon y Hy).
  destruct x as [|x|x]; try lia; [reflexivity|].
  assert (Hx' : Zpos x < 2 ^ 53) by lia.
  rewrite (of_Z_canon x Hx').
  pose proof (digits2_bounds x) as Bx. pose proof (digits2_bounds y) as By'.
  pose proof (digits2_le_53 _ Hx') as Lx.
  pose proof (digits2_le_53 _ Hy) as Ly.
  pose proof (canon_mant_value _ Hx') as Vx.
  pose proof (canon_mant_value _ Hy) as Vy.
  unfold canon, SFcompare.
  set (dx := Zpos (digits2_pos x)) in *.
  set (dy := Zpos (digits2_pos y)) in *.
  assert (Hd : dx <= dy).
  { destruct (Z_le_gt_dec dx dy); auto.
    assert (2 ^ dy <= 2 ^ (dx - 1)) by (apply Z.pow_le_mono_r; lia). lia. }
  destruct (Z.compare_spec (dx - 53) (dy - 53)) as [E|E|E];
    try lia; try reflexivity.
  assert (E' : dx = dy) by lia.
  change (Pos.compare_cont Eq ?p ?q) with (Pos.compare p q).
  assert (L : Zpos (Z.to_pos (2 ^ (53 - dx) * Zpos x))
              < Zpos (Z.to_pos (2 ^ (53 - dy) * Zpos y))).
  { rewrite Vx, Vy, E'.
    apply Z.mul_lt_mono_pos_l; [apply Z.pow_pos_nonneg; lia | lia]. }
  unfold Z.lt in L. cbn [Z.compare] in L. rewrite L. reflexivity.
Qed.

Lemma of_Z_ltb x y :
  0 <= x -> x < y -> y < 2 ^ 53 ->
  ltb (of_Z x) (of_Z y) = true /\ ltb (of_Z y) (of_Z x) = false.
Proof.
  intros Hx Hxy Hy. pose proof (of_Z_lt x y Hx Hxy Hy) as C.
  unfold ltb, SFltb. rewrite (SFcompare_antisym (of_Z x) (of_Z y)), C.
  split; reflexivity.
Qed.
End DoubleFacts.

(** ** Keys of the benchmark history *)

Module KeyFacts.
Import Double DoubleFacts UnitTest.

Lemma benchmarkKey_of_Z k :
  0 <= k < UINT_MODULUS -> benchmarkKey k = of_Z (k * 3600).
Proof.
  unfold UINT_MODULUS. intros [H0 H1].
  change (2 ^ 32) with 4294967296 in H1.
  destruct k as [|k|k]; try lia; [reflexivity|].
  unfold benchmarkKey, c3600. apply mul_of_Z.
  change (2 ^ 53) with 9007199254740992. lia.
Qed.

(** Distinct counters give distinct, ordered keys. *)
Lemma benchmarkKey_lt j k :
  0 <= j -> j < k -> k < UINT_MODULUS ->
  ltb (benchmarkKey j) (benchmarkKey k) = true
  /\ ltb (benchmarkKey k) (benchmarkKey j) = false.
Proof.
  intros H0 H1 H2. rewrite !benchmarkKey_of_Z by lia.
  unfold UINT_MODULUS in H2. change (2 ^ 32) with 4294967296 in H2.
  apply of_Z_ltb; lia.
Qed.

Lemma ltb_irrefl (a : double) : ltb a a = false.
Proof.
  unfold ltb, SFltb. pose proof (SFcompare_antisym a a) as A.
  destruct (SFcompare a a) as [[]|]; try reflexivity. discriminate A.
Qed.

Lemma benchmarkKey_equiv j k :
  0 <= j < UINT_MODULUS -> 0 <= k < UINT_MODULUS ->
  DoubleMap.equiv (benchmarkKey j) (benchmarkKey k) = (j =? k).
Proof.
  intros Hj Hk. unfold DoubleMap.equiv.
  destruct (Z.eqb_spec j k) as [->|Hne].
  - rewrite ltb_irrefl. reflexivity.
  - destruct (Z_lt_ge_dec j k).
    + destruct (benchmarkKey_lt j k) as [A B]; try lia. rewrite A. reflexivity.
    + destruct (benchmarkKey_lt k j) as [A B]; try lia.
      rewrite A, B. reflexivity.
Qed.
End KeyFacts.

(** ** The ordered map *)

Module DoubleMapFacts.
Import Double.
Section Facts.
Context {V : Type}.
Implicit Types (m h : DoubleMap.t V) (k : double).

Lemma find_below k h :
  DoubleMap.below k h -> DoubleMap.find k h = None.
Proof.
  induction 1 as [|[k' v] h [A B] _ IH]; [reflexivity|].
  cbn in *. unfold DoubleMap.equiv. rewrite A, B. exact IH.
Qed.

Lemma insert_below k v h :
  DoubleMap.below k h -> DoubleMap.insert k v h = h ++ [(k, v)].
Proof.
  induction 1 as [|[k' v'] h [A B] _ IH]; [reflexivity|].
  cbn in *. rewrite B, IH. reflexivity.
Qed.

Lemma subscript_below d k h :
  DoubleMap.below k h -> DoubleMap.subscript d k h = h ++ [(k, d)].
Proof.
  intros B. unfold DoubleMap.subscript.
  rewrite (find_below k h B). apply insert_below, B.
Qed.

Lemma find_last k v h :
  DoubleMap.below k h -> ltb k k = false ->
  DoubleMap.find k (h ++ [(k, v)]) = Some v.
Proof.
  intros B I. induction B as [|[k' v'] h [A B'] _ IH]; cbn in *.
  - unfold DoubleMap.equiv. rewrite I. reflexivity.
  - unfold DoubleMap.equiv at 1. rewrite A, B'. exact IH.
Qed.

Lemma subscript_last d k v h :
  DoubleMap.below k h -> ltb k k = false ->
  DoubleMap.subscript d k (h ++ [(k, v)]) = h ++ [(k, v)].
Proof.
  intros B I. unfold DoubleMap.subscript.
  rewrite (find_last k v h B I). reflexivity.
Qed.

Lemma modify_last k f v h :
  DoubleMap.below k h -> ltb k k = false ->
  DoubleMap.modify k f (h ++ [(k, v)]) = h ++ [(k, f v)].
Proof.
  intros B I. induction B as [|[k' v'] h [A B'] _ IH]; cbn in *.
  - unfold DoubleMap.equiv. rewrite I. reflexivity.
  - unfold DoubleMap.equiv at 1. rewrite A, B', IH. reflexivity.
Qed.

(** [put] keeps a property that all entries have. *)
Lemma put_Forall (P : double * V -> Prop) k v m :
  P (k, v) -> Forall P m -> Forall P (DoubleMap.put k v m).
Proof.
  intros Hk. induction 1 as [|[k' v'] m Hkv Hm IH]; cbn.
  - repeat constructor; assumption.
  - destruct (ltb k k').
    + repeat constructor; assumption.
    + destruct (ltb k' k); constructor; assumption.
Qed.
End Facts.
End DoubleMapFacts.

(** ** Extraction from a stream *)

Module IStreamFacts.
Import IStream BenchmarkFile.

Lemma scan_step_space st c : isspace c = true -> scan_step st c = None.
Proof.
  intros H.
  destruct c as [[] [] [] [] [] [] [] []];
    first [discriminate H | reflexivity].
Qed.

Lemma scan_accepted cs : forall st rest,
  accepted st cs = true -> stops rest = true ->
  scan st (cs ++ rest) = (cs, rest, atEnd rest).
Proof.
  induction cs as [|c cs IH]; intros st rest A S; cbn in *.
  - destruct rest as [|c r]; [reflexivity|].
    cbn in S |- *. rewrite (scan_step_space st c S). reflexivity.
  - destruct (scan_step st c) as [st'|]; [|discriminate].
    rewrite (IH st' rest A S). reflexivity.
Qed.

Lemma strtod_nil : strtod [] = None.
Proof. reflexivity. Qed.

(** A numeral is not empty and does not start with white space. *)
Lemma numeral_head cs v :
  numeral cs = Some v ->
  exists c cs', cs = c :: cs' /\ isspace c = false.
Proof.
  unfold numeral. destruct cs as [|c cs']; cbn.
  - discriminate.
  - intros H. exists c, cs'. split; [reflexivity|].
    destruct (isspace c) eqn:E; [|reflexivity].
    rewrite (scan_step_space scan_init c E) in H. discriminate.
Qed.

Lemma skipws_blank ws : forall c cs,
  blank ws = true -> isspace c = false -> skipws (ws ++ c :: cs) = c :: cs.
Proof.
  induction ws as [|w ws IH]; intros c cs B N; cbn in *.
  - rewrite N. reflexivity.
  - apply andb_true_iff in B as [Bw B]. rewrite Bw. apply IH; assumption.
Qed.

(** Extraction of one field of a well-formed table. *)
Lemma extract_field ws cs v rest :
  blank ws = true -> numeral cs = Some v -> stops rest = true ->
  extract {| failbit := false; eofbit := false; rdbuf := ws ++ cs ++ rest |}
  = ({| failbit := false; eofbit := atEnd rest; rdbuf := rest |}, Some v).
Proof.
  intros B N S.
  destruct (numeral_head cs v N) as (c & cs' & -> & Hc).
  unfold extract, good. cbn [failbit eofbit rdbuf orb negb].
  change ((c :: cs') ++ rest) with (c :: (cs' ++ rest)).
  rewrite (skipws_blank ws c (cs' ++ rest) B Hc).
  change (c :: (cs' ++ rest)) with ((c :: cs') ++ rest).
  unfold numeral in N.
  destruct (accepted scan_init (c :: cs')) eqn:A; [|discriminate].
  rewrite (scan_accepted (c :: cs') scan_init rest A S), N.
  reflexivity.
Qed.

(** Only white space is left: the extraction fails at the end of the
    file. *)
Lemma extract_blank ws :
  blank ws = true ->
  extract {| failbit := false; eofbit := false; rdbuf := ws |}
  = ({| failbit := true; eofbit := true; rdbuf := [] |}, None).
Proof.
  intros B. unfold extract, good. cbn [failbit eofbit rdbuf orb negb].
  assert (E : skipws ws = []).
  { induction ws as [|w ws IH]; cbn in *; [reflexivity|].
    apply andb_true_iff in B as [Bw B]. rewrite Bw. auto. }
  rewrite E. reflexivity.
Qed.

(** A stream that is not good gives nothing and stays as it is. *)
Lemma extract_not_good s :
  failbit s = true ->
  extract s = (s, None).
Proof.
  intros H. unfold extract, good. rewrite H. cbn.
  destruct s; cbn in *. subst. reflexivity.
Qed.
End IStreamFacts.

(** ** The loading loop *)

Module LoaderFacts.
Import Double IStream UnitTest BenchmarkFile.
Import IStreamFacts DoubleMapFacts KeyFacts.

Lemma renderRow_cons f r rest :
  renderRow (f :: r) ++ rest = leading f ++ text f ++ (renderRow r ++ rest).
Proof.
  unfold renderRow, renderField. cbn [map List.concat].
  rewrite <- !app_assoc. reflexivity.
Qed.

Lemma wellFormedField_inv f :
  wellFormedField f = true ->
  blank (leading f) = true /\ numeral (text f) = Some (value f).
Proof.
  unfold wellFormedField, isNumeral, value. intros H.
  apply andb_true_iff in H as [B N]. split; [exact B|].
  destruct (numeral (text f)); [reflexivity | discriminate].
Qed.

(** In front of a separated field the scanner stops, and the stream is
    not at its end. *)
Lemma before_field f r rest :
  wellFormedField f = true -> separated f = true ->
  stops (renderRow (f :: r) ++ rest) = true
  /\ atEnd (renderRow (f :: r) ++ rest) = false.
Proof.
  intros W S. apply wellFormedField_inv in W as [B _].
  rewrite renderRow_cons. unfold separated in S.
  destruct (leading f) as [|c l]; [discriminate|].
  cbn in *. apply andb_true_iff in B as [Bc _]. auto.
Qed.

Lemma follows_stops r rest :
  follows r rest -> stops (renderRow r ++ rest) = true.
Proof.
  intros [Hr Hs]. destruct Hr as [|f r [W S] _]; [exact Hs|].
  apply before_field; assumption.
Qed.

Lemma follows_tail f r rest : follows (f :: r) rest -> follows r rest.
Proof. intros [Hr Hs]. inversion Hr; subst. split; assumption. Qed.

Lemma follows_atEnd f r rest :
  follows (f :: r) rest -> atEnd (renderRow (f :: r) ++ rest) = false.
Proof.
  intros [Hr Hs]. inversion Hr as [|? ? [W S] _]; subst.
  apply before_field; assumption.
Qed.

Lemma extract_next f r rest :
  wellFormedField f = true -> follows r rest ->
  extract (streamAt false (renderRow (f :: r) ++ rest))
  = (streamAt (atEnd (renderRow r ++ rest)) (renderRow r ++ rest),
     Some (value f)).
Proof.
  intros W Fo. apply wellFormedField_inv in W as [B N].
  rewrite renderRow_cons. unfold streamAt.
  apply extract_field; auto using follows_stops.
Qed.

Lemma storeComponent_next k f r rest h i :
  wellFormedField f = true -> follows r rest ->
  storeComponent k (streamAt false (renderRow (f :: r) ++ rest), h) i
  = (streamAt (atEnd (renderRow r ++ rest)) (renderRow r ++ rest),
     DoubleMap.modify (benchmarkKey k) (setState i (value f))
       (DoubleMap.subscript CartesianElements_default (benchmarkKey k) h)).
Proof.
  intros W Fo. unfold storeComponent.
  rewrite (extract_next f r rest W Fo). reflexivity.
Qed.

(** Reading one row of a well-formed table. *)
Lemma loadRow_row r rest h el k :
  rowOk r -> stops rest = true ->
  loadRow {| twoBodyKeplerBenchmarkFile := streamAt false (renderRow r ++ rest);
             benchmarkKeplerPropagationHistory := h;
             elapsedTime := el;
             twoBodyKeplerDataCounter := k |}
  = {| twoBodyKeplerBenchmarkFile := streamAt (atEnd rest) rest;
       benchmarkKeplerPropagationHistory :=
         storeValues (benchmarkKey k) (map value (tl r)) h;
       elapsedTime := value (hd {| leading := []; text := [] |} r);
       twoBodyKeplerDataCounter := uint_succ k |}.
Proof.
  intros (L & W & S) St.
  destruct r as [|f0 [|f1 [|f2 [|f3 [|f4 [|f5 [|f6 [|]]]]]]]];
    try discriminate L.
  assert (Fo : follows [f1; f2; f3; f4; f5; f6] rest).
  { split; [|exact St]. cbn [tl] in S. inversion W as [|? ? _ W']; subst.
    clear - W' S. revert S. induction W'; intros S; constructor.
    - split; [assumption|]. inversion S; assumption.
    - apply IHW'. inversion S; assumption. }
  inversion W as [|? ? W0 W1]; subst.
  inversion W1 as [|? ? W1' W2]; subst.
  inversion W2 as [|? ? W2' W3]; subst.
  inversion W3 as [|? ? W3' W4]; subst.
  inversion W4 as [|? ? W4' W5]; subst.
  inversion W5 as [|? ? W5' W6]; subst.
  inversion W6 as [|? ? W6' _]; subst.
  pose proof (follows_tail _ _ _ Fo) as Fo2.
  pose proof (follows_tail _ _ _ Fo2) as Fo3.
  pose proof (follows_tail _ _ _ Fo3) as Fo4.
  pose proof (follows_tail _ _ _ Fo4) as Fo5.
  pose proof (follows_tail _ _ _ Fo5) as Fo6.
  pose proof (follows_tail _ _ _ Fo6) as Fo7.
  unfold loadRow.
  cbn [twoBodyKeplerBenchmarkFile benchmarkKeplerPropagationHistory
       elapsedTime twoBodyKeplerDataCounter].
  rewrite (extract_next f0 _ rest W0 Fo).
  rewrite (follows_atEnd _ _ _ Fo).
  cbn [seq fold_left].
  rewrite (storeComponent_next k f1 _ rest _ _ W1' Fo2).
  rewrite (follows_atEnd _ _ _ Fo2).
  rewrite (storeComponent_next k f2 _ rest _ _ W2' Fo3).
  rewrite (follows_atEnd _ _ _ Fo3).
  rewrite (storeComponent_next k f3 _ rest _ _ W3' Fo4).
  rewrite (follows_atEnd _ _ _ Fo4).
  rewrite (storeComponent_next k f4 _ rest _ _ W4' Fo5).
  rewrite (follows_atEnd _ _ _ Fo5).
  rewrite (storeComponent_next k f5 _ rest _ _ W5' Fo6).
  rewrite (follows_atEnd _ _ _ Fo6).
  rewrite (storeComponent_next k f6 _ rest _ _ W6' Fo7).
  reflexivity.
Qed.

Lemma find_insert (k : double) (v : State) h :
  DoubleMap.find k (DoubleMap.insert k v h) <> None.
Proof.
  induction h as [|[k' v'] h IH]; cbn.
  - unfold DoubleMap.equiv. rewrite ltb_irrefl. discriminate.
  - destruct (ltb k k'); cbn.
    + unfold DoubleMap.equiv at 1. rewrite ltb_irrefl. discriminate.
    + destruct (DoubleMap.equiv k k'); [discriminate | exact IH].
Qed.

Lemma subscript_idem (d : State) k h :
  DoubleMap.subscript d k (DoubleMap.subscript d k h)
  = DoubleMap.subscript d k h.
Proof.
  unfold DoubleMap.subscript at 1.
  destruct (DoubleMap.find k (DoubleMap.subscript d k h)) eqn:E;
    [reflexivity|].
  exfalso. revert E. unfold DoubleMap.subscript.
  destruct (DoubleMap.find k h) eqn:E'; [congruence|].
  apply find_insert.
Qed.

Lemma storeComponent_failed k s h i :
  failbit s = true ->
  storeComponent k (s, h) i
  = (s, DoubleMap.subscript CartesianElements_default (benchmarkKey k) h).
Proof.
  intros H. unfold storeComponent. rewrite (extract_not_good s H).
  reflexivity.
Qed.

(** The pass through the loop body that finds only white space: the
    stream reaches its end and the history gains an entry at the key
    of the counter, if it has none there already. *)
Lemma loadRow_blank trailing h el k :
  blank trailing = true ->
  loadRow {| twoBodyKeplerBenchmarkFile := streamAt false trailing;
             benchmarkKeplerPropagationHistory := h;
             elapsedTime := el;
             twoBodyKeplerDataCounter := k |}
  = {| twoBodyKeplerBenchmarkFile := streamAtEnd;
       benchmarkKeplerPropagationHistory :=
         DoubleMap.subscript CartesianElements_default (benchmarkKey k) h;
       elapsedTime := el;
       twoBodyKeplerDataCounter := uint_succ k |}.
Proof.
  intros B. unfold loadRow.
  cbn [twoBodyKeplerBenchmarkFile benchmarkKeplerPropagationHistory
       elapsedTime twoBodyKeplerDataCounter].
  unfold streamAt. rewrite (extract_blank trailing B).
  cbn [seq fold_left]. fold streamAtEnd.
  rewrite !storeComponent_failed by reflexivity.
  rewrite !subscript_idem. reflexivity.
Qed.

Lemma loadLoop_S n l :
  loadLoop (S n) l
  = if eof (twoBodyKeplerBenchmarkFile l) then Some l
    else loadLoop n (loadRow l).
Proof. reflexivity. Qed.

Lemma loadLoop_more_fuel n : forall m l l',
  loadLoop n l = Some l' -> (n <= m)%nat -> loadLoop m l = Some l'.
Proof.
  induction n as [|n IH]; intros m l l' H Le; [discriminate|].
  destruct m as [|m]; [lia|]. cbn in *.
  destruct (eof (twoBodyKeplerBenchmarkFile l)); [exact H|].
  apply IH; [exact H | lia].
Qed.

Lemma renderRows_cons r rows trailing :
  render (r :: rows) trailing = renderRow r ++ render rows trailing.
Proof.
  unfold render, renderRows. cbn [map List.concat].
  rewrite <- app_assoc. reflexivity.
Qed.

Lemma laterRows_stop rows trailing :
  Forall laterRowOk rows -> blank trailing = true ->
  stops (render rows trailing) = true.
Proof.
  intros Hr B. destruct Hr as [|r rows [(L & W & _) S] _].
  - unfold render, renderRows. cbn. destruct trailing as [|c t]; cbn in *;
      [reflexivity|]. apply andb_true_iff in B as [Bc _]. exact Bc.
  - rewrite renderRows_cons. destruct r as [|f r]; [discriminate L|].
    inversion W; subst. inversion S; subst.
    apply before_field; assumption.
Qed.

Lemma laterRows_atEnd r rows trailing :
  laterRowOk r -> atEnd (render (r :: rows) trailing) = false.
Proof.
  intros [(L & W & _) S].
  rewrite renderRows_cons. destruct r as [|f r]; [discriminate L|].
  inversion W; subst. inversion S; subst.
  apply before_field; assumption.
Qed.

(** The loop over a well-formed table: it ends, and with this
    history. [fuel] is any fuel left over. *)
Lemma loadLoop_rows rows : forall r trailing h el k fuel,
  rowOk r -> Forall laterRowOk rows -> blank trailing = true ->
  exists el',
    loadLoop (S (S (S (List.length rows + fuel))))
      {| twoBodyKeplerBenchmarkFile :=
           streamAt false (render (r :: rows) trailing);
         benchmarkKeplerPropagationHistory := h;
         elapsedTime := el;
         twoBodyKeplerDataCounter := k |}
    = Some {| twoBodyKeplerBenchmarkFile :=
                if endsAfterLastRow (r :: rows) trailing
                then streamAt true [] else streamAtEnd;
              benchmarkKeplerPropagationHistory :=
                loadedHistory k (r :: rows) trailing h;
              elapsedTime := el';
              twoBodyKeplerDataCounter :=
                if endsAfterLastRow (r :: rows) trailing
                then counterAfter k (r :: rows)
                else uint_succ (counterAfter k (r :: rows)) |}.
Proof.
  induction rows as [|r' rows IH]; intros r trailing h el k fuel R Rs B.
  - (* the last row *)
    change (List.length (@nil row) + fuel)%nat with fuel.
    rewrite loadLoop_S. cbn [twoBodyKeplerBenchmarkFile streamAt eof eofbit].
    fold (streamAt false (render [r] trailing)).
    rewrite renderRows_cons.
    assert (St : stops (render [] trailing) = true)
      by (apply laterRows_stop; [constructor | exact B]).
    rewrite (loadRow_row r (render [] trailing) h el k R St).
    unfold render, renderRows. cbn [map List.concat app].
    unfold loadedHistory. cbn [storeRows counterAfter].
    rewrite loadLoop_S. cbn [twoBodyKeplerBenchmarkFile streamAt eof eofbit].
    destruct trailing as [|c t]; cbn [atEnd endsAfterLastRow].
    + eexists. reflexivity.
    + fold (streamAt false (c :: t)).
      rewrite (loadRow_blank (c :: t) _ _ _ B).
      rewrite loadLoop_S.
      cbn [twoBodyKeplerBenchmarkFile streamAtEnd eof eofbit].
      eexists. reflexivity.
  - (* a row followed by another *)
    inversion Rs as [|? ? R' Rs']; subst.
    change (List.length (r' :: rows) + fuel)%nat
      with (S (List.length rows + fuel)).
    rewrite loadLoop_S. cbn [twoBodyKeplerBenchmarkFile streamAt eof eofbit].
    fold (streamAt false (render (r :: r' :: rows) trailing)).
    rewrite renderRows_cons.
    assert (St : stops (render (r' :: rows) trailing) = true)
      by (apply laterRows_stop; assumption).
    rewrite (loadRow_row r (render (r' :: rows) trailing) h el k R St).
    rewrite (laterRows_atEnd r' rows trailing R').
    destruct (IH r' trailing
                (storeValues (benchmarkKey k) (map value (tl r)) h)
                (value (hd {| leading := []; text := [] |} r))
                (uint_succ k) fuel (proj1 R') Rs' B) as [el' E].
    exists el'. rewrite E. reflexivity.
Qed.

(** A table with no row at all: one pass, which finds the end. *)
Lemma loadLoop_empty trailing fuel :
  blank trailing = true ->
  loadLoop (S (S fuel)) (loadStart (streamAt false trailing))
  = Some {| twoBodyKeplerBenchmarkFile := streamAtEnd;
            benchmarkKeplerPropagationHistory :=
              loadedHistory 0 [] trailing DoubleMap.empty;
            elapsedTime := zero;
            twoBodyKeplerDataCounter := uint_succ 0 |}.
Proof.
  intros B. unfold loadStart. rewrite loadLoop_S.
  cbn [twoBodyKeplerBenchmarkFile streamAt eof eofbit].
  fold (streamAt false trailing).
  rewrite (loadRow_blank trailing _ _ _ B), loadLoop_S.
  reflexivity.
Qed.

Lemma Forall_forallb {A} (p : A -> bool) l :
  forallb p l = true -> Forall (fun a => p a = true) l.
Proof. intros H. apply Forall_forall. apply forallb_forall. exact H. Qed.

Lemma rowOk_of_bool r fs :
  Nat.eqb (List.length r) 7 = true ->
  Forall (fun f => wellFormedField f = true) (r ++ fs) ->
  Forall (fun f => separated f = true) (tl (r ++ fs)) ->
  rowOk r.
Proof.
  intros L W S. apply Nat.eqb_eq in L. repeat split; [exact L| |].
  - apply Forall_app in W. apply W.
  - destruct r as [|f r]; [discriminate L|]. cbn [tl app] in *.
    apply Forall_app in S. apply S.
Qed.

Lemma laterRows_of_bool rows :
  Forall (fun r => Nat.eqb (List.length r) 7 = true) rows ->
  Forall (fun f => wellFormedField f = true) (List.concat rows) ->
  Forall (fun f => separated f = true) (List.concat rows) ->
  Forall laterRowOk rows.
Proof.
  induction 1 as [|r rows L _ IH]; intros W S; constructor.
  - cbn [List.concat] in W, S. split.
    + apply Nat.eqb_eq in L. repeat split; [exact L| |].
      * apply Forall_app in W. apply W.
      * apply Forall_app in S. destruct S as [S _].
        destruct r; [constructor | inversion S; assumption].
    + apply Forall_app in S. apply S.
  - cbn [List.concat] in W, S. apply Forall_app in W, S.
    apply IH; [apply W | apply S].
Qed.

Lemma wellFormed_inv rows trailing :
  wellFormed rows trailing = true ->
  blank trailing = true
  /\ match rows with
     | [] => True
     | r :: rows' => rowOk r /\ Forall laterRowOk rows'
     end.
Proof.
  unfold wellFormed. intros H.
  apply andb_true_iff in H as [H B].
  apply andb_true_iff in H as [H S].
  apply andb_true_iff in H as [L W].
  apply Forall_forallb in L, W, S.
  split; [exact B|].
  destruct rows as [|r rows]; [exact I|].
  inversion L as [|? ? Lr Lrows]; subst. cbn [List.concat] in W, S.
  split.
  - eapply rowOk_of_bool; eassumption.
  - apply laterRows_of_bool; [exact Lrows | |].
    + apply Forall_app in W. apply W.
    + destruct r as [|f r]; [discriminate Lr|]. cbn [tl app] in S.
      apply Forall_app in S. apply S.
Qed.

(** Loading a well-formed table ends, within two passes more than it
    has rows. *)
Lemma loadLoop_wellFormed rows trailing fuel :
  wellFormed rows trailing = true ->
  (List.length rows + 2 <= fuel)%nat ->
  exists loaded,
    loadLoop fuel (loadStart (open (Some (render rows trailing))))
    = Some loaded
    /\ benchmarkKeplerPropagationHistory loaded
       = loadedHistory 0 rows trailing DoubleMap.empty
    /\ twoBodyKeplerDataCounter loaded
       = if endsAfterLastRow rows trailing then counterAfter 0 rows
         else uint_succ (counterAfter 0 rows).
Proof.
  intros W Le. apply wellFormed_inv in W as [B W].
  destruct rows as [|r rows].
  - eexists. split; [|split].
    + eapply loadLoop_more_fuel; [|exact Le].
      apply (loadLoop_empty trailing 0 B).
    + reflexivity.
    + reflexivity.
  - destruct W as [R Rs].
    destruct (loadLoop_rows rows r trailing DoubleMap.empty zero 0 0 R Rs B)
      as [el' E].
    eexists. split; [|split].
    + eapply loadLoop_more_fuel; [exact E|].
      cbn [List.length] in Le. lia.
    + reflexivity.
    + reflexivity.
Qed.
End LoaderFacts.

(** ** The history a table gives *)

Module HistoryFacts.
Import Double IStream UnitTest BenchmarkFile.
Import IStreamFacts DoubleMapFacts KeyFacts LoaderFacts.

Lemma uint_succ_small k :
  0 <= k -> k + 1 < UINT_MODULUS -> uint_succ k = k + 1.
Proof. intros. unfold uint_succ. apply Z.mod_small. lia. Qed.

Lemma keysBelow_below k h :
  0 <= k < UINT_MODULUS -> keysBelow k h ->
  DoubleMap.below (benchmarkKey k) h.
Proof.
  intros Hk H. unfold keysBelow, DoubleMap.below in *.
  eapply Forall_impl; [|exact H].
  intros [k' v] (j & Hj & ->). cbn [fst]. apply benchmarkKey_lt; lia.
Qed.

(** Six assignments through [history[ key ]] on a key that is new and
    greater than all others: one entry more, at the end. *)
Lemma storeValues_below key vs h :
  List.length vs = 6%nat -> DoubleMap.below key h ->
  storeValues key vs h = h ++ [(key, {| state := vs |})].
Proof.
  intros L B.
  destruct vs as [|v1 [|v2 [|v3 [|v4 [|v5 [|v6 [|]]]]]]]; try discriminate L.
  pose proof (ltb_irrefl key) as I.
  unfold storeValues. cbn [combine seq fold_left fst snd].
  rewrite (subscript_below _ key h B), (modify_last key _ _ h B I).
  repeat rewrite (subscript_last _ key _ h B I), (modify_last key _ _ h B I).
  reflexivity.
Qed.

Lemma storeRows_entries rows : forall k h,
  0 <= k -> k + Z.of_nat (List.length rows) < UINT_MODULUS ->
  keysBelow k h ->
  Forall (fun r : row => List.length r = 7%nat) rows ->
  storeRows k rows h = h ++ entries k rows
  /\ counterAfter k rows = k + Z.of_nat (List.length rows).
Proof.
  induction rows as [|r rows IH]; intros k h H0 H1 K L.
  - cbn. rewrite app_nil_r. split; [reflexivity | lia].
  - inversion L as [|? ? Lr Lrows]; subst.
    cbn [List.length] in H1. cbn [storeRows counterAfter entries].
    rewrite uint_succ_small by lia.
    rewrite storeValues_below.
    + destruct (IH (k + 1)
                  (h ++ [(benchmarkKey k, {| state := map value (tl r) |})]))
        as [E C]; try lia; try assumption.
      * unfold keysBelow in *. apply Forall_app. split.
        -- eapply Forall_impl; [|exact K].
           intros kv (j & Hj & E). exists j. split; [lia | exact E].
        -- constructor; [|constructor]. exists k. split; [lia|reflexivity].
      * rewrite E, C, <- app_assoc. cbn [List.length].
        split; [reflexivity | lia].
    + rewrite length_map. destruct r; [discriminate Lr|].
      cbn in *. lia.
    + apply keysBelow_below; [lia | exact K].
Qed.

(** Row [j] is found at the key of counter [j], whatever comes after
    the rows in the history. *)
Lemma find_entries rows : forall k j r tail,
  0 <= k -> k + Z.of_nat (List.length rows) <= UINT_MODULUS ->
  nth_error rows j = Some r ->
  DoubleMap.find (benchmarkKey (k + Z.of_nat j)) (entries k rows ++ tail)
  = Some (rowState r).
Proof.
  induction rows as [|r0 rows IH]; intros k j r tail H0 H1 N.
  - destruct j; discriminate N.
  - cbn [List.length] in H1. cbn [entries app DoubleMap.find].
    assert (Hj : (j < S (List.length rows))%nat).
    { change (S (List.length rows)) with (List.length (r0 :: rows)).
      apply nth_error_Some. congruence. }
    rewrite benchmarkKey_equiv by lia.
    destruct j as [|j]; cbn [nth_error] in N.
    + replace (k + Z.of_nat 0 =? k) with true
        by (symmetry; apply Z.eqb_eq; lia).
      congruence.
    + replace (k + Z.of_nat (S j) =? k) with false
        by (symmetry; apply Z.eqb_neq; lia).
      replace (k + Z.of_nat (S j)) with ((k + 1) + Z.of_nat j) by lia.
      apply IH; try lia. exact N.
Qed.

Lemma wellFormed_lengths rows trailing :
  wellFormed rows trailing = true ->
  Forall (fun r : row => List.length r = 7%nat) rows.
Proof.
  unfold wellFormed. intros H.
  apply andb_true_iff in H as [H _].
  apply andb_true_iff in H as [H _].
  apply andb_true_iff in H as [L _].
  apply Forall_forallb in L. eapply Forall_impl; [|exact L].
  intros r E. apply Nat.eqb_eq. exact E.
Qed.

(** The history of a well-formed table of fewer than 2^32 rows. *)
Lemma loadedHistory_entries rows trailing :
  wellFormed rows trailing = true ->
  Z.of_nat (List.length rows) < UINT_MODULUS ->
  loadedHistory 0 rows trailing DoubleMap.empty
  = entries 0 rows
      ++ (if endsAfterLastRow rows trailing then [] else [spuriousEntry rows]).
Proof.
  intros W Lt. pose proof (wellFormed_lengths rows trailing W) as L.
  destruct (storeRows_entries rows 0 DoubleMap.empty) as [E C];
    try lia; try assumption; [constructor|].
  unfold loadedHistory. rewrite E, C. cbn [DoubleMap.empty app Z.add].
  destruct (endsAfterLastRow rows trailing); [rewrite app_nil_r; reflexivity|].
  unfold spuriousEntry. apply subscript_below.
  apply keysBelow_below; [lia|].
  assert (K : forall rs k, 0 <= k ->
            keysBelow (k + Z.of_nat (List.length rs)) (entries k rs)).
  { clear. induction rs as [|r rs IH]; intros k Hk; [constructor|].
    cbn [entries List.length]. constructor.
    - exists k. cbn [fst]. split; [lia | reflexivity].
    - replace (k + Z.of_nat (S (List.length rs)))
        with ((k + 1) + Z.of_nat (List.length rs)) by lia.
      apply IH. lia. }
  apply (K rows 0). lia.
Qed.
End HistoryFacts.

(** ** The unit test *)

Module UnitTestFacts.
Import Double IStream UnitTest BenchmarkFile Samples.
Import IStreamFacts DoubleMapFacts KeyFacts LoaderFacts HistoryFacts.

(** The bound of the comparison loop: 0.0 / 3600.0. *)
Lemma comparison_bound env :
  div (seriesPropagationStart (seriesPropagator env))
      (fixedOutputInterval (seriesPropagator env)) = zero.
Proof. reflexivity. Qed.

Lemma comparisonLoop_skipped env benchmark fuel cerr :
  comparisonLoop env benchmark (S fuel) 0 false cerr = Returns (false, cerr).
Proof. reflexivity. Qed.

(** Whenever the loading loop ends, the test returns false. *)
Lemma test_returns_false env fuel contents loaded :
  loadLoop fuel (loadStart (open contents)) = Some loaded ->
  testKeplerPropagator env fuel contents
  = Returns (false, snd (openBenchmark env contents)).
Proof.
  intros H. unfold testKeplerPropagator, openBenchmark.
  rewrite H. destruct fuel as [|fuel]; [discriminate H|].
  apply comparisonLoop_skipped.
Qed.

(** C2: with the start time 0.0 the bound of the comparison loop,
    start / interval, is zero; the body of the loop is never entered,
    and for every benchmark table and every propagator the test
    returns false. *)
Theorem start_zero_skips_comparison env rows trailing fuel :
  wellFormed rows trailing = true ->
  (List.length rows + 2 <= fuel)%nat ->
  div (seriesPropagationStart (seriesPropagator env))
      (fixedOutputInterval (seriesPropagator env)) = zero
  /\ (forall benchmark cerr,
        comparisonLoop env benchmark fuel 0 false cerr
        = Returns (false, cerr))
  /\ testKeplerPropagator env fuel (Some (render rows trailing))
     = Returns (false, []).
Proof.
  intros W Le. split; [apply comparison_bound|]. split.
  - intros benchmark cerr. destruct fuel as [|fuel]; [lia|].
    apply comparisonLoop_skipped.
  - destruct (loadLoop_wellFormed rows trailing fuel W Le) as (l & E & _).
    apply (test_returns_false env fuel _ l E).
Qed.

Lemma start_zero_skips_comparison_witness :
  wellFormed twoRows newline = true
  /\ testKeplerPropagator (collaborators oneKilometreOff) 4
       (Some (render twoRows newline))
     = Returns (false, []).
Proof.
  split; [reflexivity|].
  apply (start_zero_skips_comparison (collaborators oneKilometreOff)
           twoRows newline 4); [reflexivity | cbn; lia].
Defined.

(** C1: the calibration run against a table that holds the initial
    state, with a propagator whose first sample is one kilometre off:
    the x components at t = 0 differ by more than the tolerance, and
    the test returns false all the same. *)
Theorem calibration_mismatch_not_reported :
  let env := collaborators oneKilometreOff in
  let table := render [initialRow] newline in
  (exists loaded a b,
      loadLoop 3 (loadStart (open (Some table))) = Some loaded
      /\ getState 0 (DoubleMap.at_default State_default zero
                       (asterixKeplerPropagationHistory env)) = Some a
      /\ getState 0 (DoubleMap.at_default CartesianElements_default zero
                       (benchmarkKeplerPropagationHistory loaded)) = Some b
      /\ ltb toleranceBetweenBenchmarkAndSimulationData
             (computeAbsoluteValue env (sub a b)) = true)
  /\ testKeplerPropagator env 3 (Some table) = Returns (false, []).
Proof.
  cbv zeta. split.
  - eexists. eexists. eexists. split; [vm_compute; reflexivity|].
    split; [vm_compute; reflexivity|].
    split; [vm_compute; reflexivity|]. vm_compute. reflexivity.
  - vm_compute. reflexivity.
Qed.

(** *** A file that cannot be opened *)

Lemma loadRow_failed l :
  failbit (twoBodyKeplerBenchmarkFile l) = true ->
  twoBodyKeplerBenchmarkFile (loadRow l) = twoBodyKeplerBenchmarkFile l.
Proof.
  intros H. unfold loadRow.
  rewrite (extract_not_good _ H). cbn [seq fold_left].
  rewrite !storeComponent_failed by exact H. reflexivity.
Qed.

Lemma loadLoop_failed fuel : forall l,
  failbit (twoBodyKeplerBenchmarkFile l) = true ->
  eofbit (twoBodyKeplerBenchmarkFile l) = false ->
  loadLoop fuel l = None.
Proof.
  induction fuel as [|fuel IH]; intros l Hf He; [reflexivity|].
  rewrite loadLoop_S. unfold eof. rewrite He.
  apply IH; rewrite (loadRow_failed l Hf); assumption.
Qed.

(** C9: when the file cannot be opened the test writes its two lines
    to [cerr] and goes on with the stream as it is. On that stream
    [eof()] never holds: the first pass of the loading loop already
    puts an entry in the history, the loop ends for no amount of fuel,
    and the test does not return. *)
Theorem unopened_file_never_returns env fuel :
  openBenchmark env None
  = (open None,
     [couldNotBeOpened;
      (ROOT_PATH env ++ relativePathToBenchmarkData)%string])
  /\ fail (open None) = true
  /\ eof (open None) = false
  /\ benchmarkKeplerPropagationHistory (loadRow (loadStart (open None)))
     = [(benchmarkKey 0, CartesianElements_default)]
  /\ loadLoop fuel (loadStart (open None)) = None
  /\ testKeplerPropagator env fuel None = OutOfFuel.
Proof.
  assert (L : loadLoop fuel (loadStart (open None)) = None)
    by (apply loadLoop_failed; reflexivity).
  repeat split; try exact L.
  unfold testKeplerPropagator, openBenchmark. rewrite L. reflexivity.
Qed.

(** *** The keys of the benchmark history *)

(** C8: row [j] of a well-formed table, read as [elapsed time, x, y,
    z, xdot, ydot, zdot], is stored at the key [j * 3600.0], whatever
    its elapsed-time column holds; the keys of different rows are
    different and follow the order of the rows. *)
Theorem benchmark_rows_keyed_by_sample_index rows trailing fuel :
  wellFormed rows trailing = true ->
  Z.of_nat (List.length rows) < UINT_MODULUS ->
  (List.length rows + 2 <= fuel)%nat ->
  exists loaded,
    loadLoop fuel (loadStart (open (Some (render rows trailing))))
    = Some loaded
    /\ (forall j r,
          nth_error rows j = Some r ->
          benchmarkKey (Z.of_nat j) = of_Z (Z.of_nat j * 3600)
          /\ DoubleMap.find (benchmarkKey (Z.of_nat j))
               (benchmarkKeplerPropagationHistory loaded)
             = Some {| state := map value (tl r) |})
    /\ (forall i j,
          (i < j < List.length rows)%nat ->
          ltb (benchmarkKey (Z.of_nat i)) (benchmarkKey (Z.of_nat j)) = true
          /\ DoubleMap.equiv (benchmarkKey (Z.of_nat i))
               (benchmarkKey (Z.of_nat j)) = false).
Proof.
  intros W Lt Le.
  destruct (loadLoop_wellFormed rows trailing fuel W Le) as (l & E & H & _).
  exists l. split; [exact E|]. split.
  - intros j r N.
    assert (Hj : (j < List.length rows)%nat)
      by (apply nth_error_Some; congruence).
    split; [apply benchmarkKey_of_Z; lia|].
    rewrite H, (loadedHistory_entries rows trailing W Lt).
    apply (find_entries rows 0 j r); [lia | lia | exact N].
  - intros i j Hij. split.
    + apply benchmarkKey_lt; lia.
    + rewrite benchmarkKey_equiv by lia. apply Z.eqb_neq. lia.
Qed.

Lemma benchmark_rows_keyed_by_sample_index_witness :
  wellFormed twoRows newline = true
  /\ Z.of_nat (List.length twoRows) < UINT_MODULUS
  /\ exists loaded,
       loadLoop 4 (loadStart (open (Some (render twoRows newline))))
       = Some loaded
       /\ DoubleMap.find (benchmarkKey 1)
            (benchmarkKeplerPropagationHistory loaded)
          = Some {| state := map value (tl secondRow) |}.
Proof.
  split; [reflexivity|]. split; [reflexivity|].
  destruct (benchmark_rows_keyed_by_sample_index
              twoRows newline 4) as (l & E & F & _);
    [reflexivity | reflexivity | cbn; lia |].
  exists l. split; [exact E|]. apply (F 1%nat secondRow). reflexivity.
Defined.

(** The second row above is stored at 3600 although its first column
    reads 10, and nothing is stored at 10. *)
Example second_row_not_keyed_by_its_time :
  option_map
    (fun l => (DoubleMap.find (of_Z 3600) (benchmarkKeplerPropagationHistory l),
               DoubleMap.find (of_Z 10) (benchmarkKeplerPropagationHistory l)))
    (loadLoop 4 (loadStart (open (Some (render twoRows newline)))))
  = Some (Some (rowState secondRow), None).
Proof. vm_compute. reflexivity. Qed.

(** *** The pass after the last row *)

(** C10, as stated, fails on a table whose last number ends the file:
    one row, one pass of the loop, one key. *)
Lemma no_extra_pass_without_trailing_space :
  exists loaded,
    loadLoop 3 (loadStart (open (Some (render [initialRow] []))))
    = Some loaded
    /\ twoBodyKeplerDataCounter loaded = 1
    /\ DoubleMap.size (benchmarkKeplerPropagationHistory loaded) = 1%nat
    /\ DoubleMap.size (benchmarkKeplerPropagationHistory loaded)
       <> (List.length [initialRow] + 1)%nat.
Proof.
  eexists. split; [vm_compute; reflexivity|].
  split; [reflexivity|]. split; [reflexivity|]. cbn. discriminate.
Qed.

(** C10, amended: for a well-formed table of N rows (fewer than 2^32)
    in which white space follows the last number, or which has no row,
    the loop makes N + 1 passes; the last one reads nothing and leaves
    a default entry at the key N * 3600.0, so that the history holds
    N + 1 keys. When the last number ends the file the loop makes N
    passes and the history holds the N rows only. *)
Theorem extra_pass_after_trailing_space rows trailing fuel :
  wellFormed rows trailing = true ->
  Z.of_nat (List.length rows) < UINT_MODULUS ->
  (List.length rows + 2 <= fuel)%nat ->
  exists loaded,
    loadLoop fuel (loadStart (open (Some (render rows trailing))))
    = Some loaded
    /\ if endsAfterLastRow rows trailing
       then twoBodyKeplerDataCounter loaded = Z.of_nat (List.length rows)
            /\ benchmarkKeplerPropagationHistory loaded = entries 0 rows
            /\ DoubleMap.size (benchmarkKeplerPropagationHistory loaded)
               = List.length rows
       else twoBodyKeplerDataCounter loaded
              = (Z.of_nat (List.length rows) + 1) mod UINT_MODULUS
            /\ benchmarkKeplerPropagationHistory loaded
               = entries 0 rows
                   ++ [(benchmarkKey (Z.of_nat (List.length rows)),
                        CartesianElements_default)]
            /\ DoubleMap.size (benchmarkKeplerPropagationHistory loaded)
               = (List.length rows + 1)%nat.
Proof.
  intros W Lt Le.
  destruct (loadLoop_wellFormed rows trailing fuel W Le) as (l & E & H & C).
  exists l. split; [exact E|].
  pose proof (loadedHistory_entries rows trailing W Lt) as HE.
  pose proof (wellFormed_lengths rows trailing W) as L.
  destruct (storeRows_entries rows 0 DoubleMap.empty) as [_ CA];
    try lia; try assumption; [constructor|].
  assert (Len : forall rs k, List.length (entries k rs) = List.length rs).
  { clear. induction rs as [|r rs IH]; intros k; cbn; [reflexivity|].
    rewrite IH. reflexivity. }
  rewrite H, HE, C, CA.
  destruct (endsAfterLastRow rows trailing).
  - rewrite app_nil_r. unfold DoubleMap.size. rewrite Len.
    repeat split.
  - unfold DoubleMap.size, spuriousEntry, uint_succ.
    rewrite length_app, Len. repeat split.
Qed.

Lemma extra_pass_after_trailing_space_witness :
  wellFormed twoRows newline = true
  /\ Z.of_nat (List.length twoRows) < UINT_MODULUS
  /\ exists loaded,
       loadLoop 4 (loadStart (open (Some (render twoRows newline))))
       = Some loaded
       /\ DoubleMap.size (benchmarkKeplerPropagationHistory loaded) = 3%nat.
Proof.
  split; [reflexivity|]. split; [reflexivity|].
  destruct (extra_pass_after_trailing_space
              twoRows newline 4) as (l & E & R);
    [reflexivity | reflexivity | cbn; lia |].
  exists l. split; [exact E|]. cbn in R. apply R.
Defined.
End UnitTestFacts.

(** ** The order of the keys *)

Module KeyOrderFacts.
Import Double KeyOrder.
Import DoubleFacts.

Lemma SFcompare_rank a b ra rb :
  rank a = Some ra -> rank b = Some rb ->
  SFcompare a b = Some (lexCompare ra rb).
Proof.
  destruct a as [sa|sa| |sa ma ea], b as [sb|sb| |sb mb eb];
    try destruct sa; try destruct sb; cbn [rank];
    intros A B; inversion A; inversion B; subst; try reflexivity.
  (* both negative: the order of the exponents is reversed *)
  unfold SFcompare, lexCompare. cbn [fst snd].
  change (-1 ?= -1) with Eq. cbv iota.
  rewrite Z.compare_opp. rewrite (Z.compare_antisym ea eb).
  destruct (ea ?= eb); reflexivity.
Qed.

Lemma lexCompare_refl a : lexCompare a a = Eq.
Proof.
  unfold lexCompare. rewrite !Z.compare_refl. reflexivity.
Qed.

Lemma lexCompare_eq a b : lexCompare a b = Eq -> a = b.
Proof.
  destruct a as [[c1 e1] m1], b as [[c2 e2] m2]. unfold lexCompare.
  cbn [fst snd].
  destruct (Z.compare_spec c1 c2); try discriminate.
  destruct (Z.compare_spec e1 e2); try discriminate.
  destruct (Z.compare_spec m1 m2); try discriminate.
  intros _. congruence.
Qed.

(** [a] stands before [b]. *)
Lemma lexCompare_lt a b :
  lexCompare a b = Lt <->
  (fst (fst a) < fst (fst b)
   \/ (fst (fst a) = fst (fst b)
       /\ (snd (fst a) < snd (fst b)
           \/ (snd (fst a) = snd (fst b) /\ snd a < snd b)))).
Proof.
  destruct a as [[c1 e1] m1], b as [[c2 e2] m2]. unfold lexCompare.
  cbn [fst snd].
  destruct (Z.compare_spec c1 c2);
    destruct (Z.compare_spec e1 e2);
    destruct (Z.compare_spec m1 m2);
    split; intros X; try discriminate; try reflexivity; lia.
Qed.

Lemma lexCompare_gt a b : lexCompare a b = Gt -> lexCompare b a = Lt.
Proof.
  intros G. apply lexCompare_lt. revert G.
  destruct a as [[c1 e1] m1], b as [[c2 e2] m2]. unfold lexCompare.
  cbn [fst snd].
  destruct (Z.compare_spec c1 c2);
    destruct (Z.compare_spec e1 e2);
    destruct (Z.compare_spec m1 m2);
    intros X; try discriminate; lia.
Qed.

Lemma ltb_rank a b ra rb :
  rank a = Some ra -> rank b = Some rb ->
  ltb a b = match lexCompare ra rb with Lt => true | _ => false end.
Proof.
  intros A B. unfold ltb, SFltb. rewrite (SFcompare_rank a b ra rb A B).
  reflexivity.
Qed.

Lemma equiv_rank a b ra rb :
  rank a = Some ra -> rank b = Some rb ->
  (DoubleMap.equiv a b = true <-> ra = rb).
Proof.
  intros A B. unfold DoubleMap.equiv.
  rewrite (ltb_rank a b ra rb A B), (ltb_rank b a rb ra B A).
  split.
  - intros H. destruct (lexCompare ra rb) eqn:E; try discriminate H.
    + apply lexCompare_eq, E.
    + rewrite (lexCompare_gt _ _ E) in H. discriminate H.
  - intros ->. rewrite lexCompare_refl. reflexivity.
Qed.

(** Keys that are the same key as a third are the same key. *)
Lemma equiv_trans a b c :
  comparable a -> comparable b -> comparable c ->
  DoubleMap.equiv a b = true -> DoubleMap.equiv b c = true ->
  DoubleMap.equiv a c = true.
Proof.
  unfold comparable. intros A B C.
  destruct (rank a) as [ra|] eqn:Ea; [|congruence].
  destruct (rank b) as [rb|] eqn:Eb; [|congruence].
  destruct (rank c) as [rc|] eqn:Ec; [|congruence].
  rewrite (equiv_rank a b ra rb Ea Eb), (equiv_rank b c rb rc Eb Ec),
    (equiv_rank a c ra rc Ea Ec).
  congruence.
Qed.

Lemma equiv_sym a b : DoubleMap.equiv a b = DoubleMap.equiv b a.
Proof. unfold DoubleMap.equiv. apply andb_comm. Qed.

(** A key less than another is not the same key as it, nor as any key
    that is the same as it. *)
Lemma ltb_not_equiv a b c :
  comparable a -> comparable b -> comparable c ->
  ltb a b = true -> DoubleMap.equiv c b = true ->
  DoubleMap.equiv c a = false.
Proof.
  unfold comparable. intros A B C L E.
  destruct (rank a) as [ra|] eqn:Ea; [|congruence].
  destruct (rank b) as [rb|] eqn:Eb; [|congruence].
  destruct (rank c) as [rc|] eqn:Ec; [|congruence].
  apply (equiv_rank c b rc rb Ec Eb) in E. subst rc.
  destruct (DoubleMap.equiv c a) eqn:X; [|reflexivity].
  apply (equiv_rank c a rb ra Ec Ea) in X. subst rb.
  rewrite (ltb_rank a b ra ra Ea Eb), lexCompare_refl in L. discriminate L.
Qed.

Lemma equiv_refl a : DoubleMap.equiv a a = true.
Proof.
  unfold DoubleMap.equiv.
  assert (I : ltb a a = false).
  { unfold ltb, SFltb. pose proof (SFcompare_antisym a a) as A.
    destruct (SFcompare a a) as [[]|]; try reflexivity. discriminate A. }
  rewrite I. reflexivity.
Qed.

(** Lookup after [put]: the new state at the key put, what was there
    before at every other key. *)
Lemma find_put {V : Type} (k k' : double) (v : V) (m : DoubleMap.t V) :
  comparable k -> comparable k' ->
  Forall (fun kv => comparable (fst kv)) m ->
  DoubleMap.find k (DoubleMap.put k' v m)
  = if DoubleMap.equiv k k' then Some v else DoubleMap.find k m.
Proof.
  intros K K' M. induction M as [|[k1 v1] m K1 M IH].
  - reflexivity.
  - cbn [fst] in K1. cbn [DoubleMap.put].
    destruct (ltb k' k1) eqn:L1; [reflexivity|].
    destruct (ltb k1 k') eqn:L2.
    + cbn [DoubleMap.find]. rewrite IH.
      destruct (DoubleMap.equiv k k') eqn:E; [|reflexivity].
      rewrite (ltb_not_equiv k1 k' k K1 K' K L2 E). reflexivity.
    + cbn [DoubleMap.find].
      destruct (DoubleMap.equiv k k') eqn:E; [reflexivity|].
      assert (E1 : DoubleMap.equiv k1 k' = true)
        by (unfold DoubleMap.equiv; rewrite L1, L2; reflexivity).
      destruct (DoubleMap.equiv k k1) eqn:E2; [|reflexivity].
      rewrite (equiv_trans k k1 k' K K1 K' E2 E1) in E. discriminate E.
Qed.

(** What is not greater than something is not a NaN. *)
Lemma leb_comparable a b : leb a b = true -> comparable a.
Proof.
  unfold comparable, leb, SFleb. intros H.
  destruct a as [s|s| |s m e]; try destruct s; cbn in *; discriminate.
Qed.
End KeyOrderFacts.

(** ** The series driver *)

Module DesignFacts.
Import Double Design DesignSamples KeyOrder Runs.
Import DoubleFacts DoubleMapFacts KeyOrderFacts.

Lemma leb_not_ltb a b : leb a b = true -> ltb b a = false.
Proof.
  unfold leb, ltb, SFleb, SFltb. rewrite (SFcompare_antisym a b).
  destruct (SFcompare a b) as [[]|]; cbn; congruence.
Qed.

(** C3: a configuration whose interval is not positive, or whose end
    time is not greater than its start time, is rejected with
    InvalidConfigurationError: the run has no history and the
    single-step propagator was not called. *)
Theorem invalid_configuration_rejected F solver c fuel :
  leb (interval c) zero = true \/ ltb (start c) (finish c) = false ->
  execute F solver fuel c
  = {| status := Failed InvalidConfigurationError None;
       history := DoubleMap.empty;
       calls := [] |}.
Proof.
  intros H. unfold execute, validConfiguration.
  destruct H as [H|H].
  - rewrite (leb_not_ltb _ _ H). reflexivity.
  - rewrite H, andb_false_r. reflexivity.
Qed.

Lemma invalid_configuration_rejected_witness :
  (leb (interval zeroInterval) zero = true
   \/ ltb (start zeroInterval) (finish zeroInterval) = false)
  /\ execute flatFormulas defaultSolverConfiguration 30 zeroInterval
     = {| status := Failed InvalidConfigurationError None;
          history := DoubleMap.empty;
          calls := [] |}.
Proof.
  split; [left; reflexivity|].
  apply (invalid_configuration_rejected flatFormulas
           defaultSolverConfiguration zeroInterval 30).
  left. reflexivity.
Defined.

Section Driver.
Variable F : Formulas.
Variable solver : SolverConfiguration.
Variable c : Configuration.

Lemma callsUpTo_S n :
  callsUpTo c (S n) = callsUpTo c n ++ [(initialState c, elapsedAt c n)].
Proof. unfold callsUpTo. rewrite seq_S, map_app. reflexivity. Qed.

Lemma callsUpTo_length n : List.length (callsUpTo c n) = n.
Proof. unfold callsUpTo. rewrite length_map, length_seq. reflexivity. Qed.

(** What holds of a run from sample [k] on, when it held before. *)
Lemma sample_invariant fuel : forall k h,
  Forall (fromInitialState F solver c) h ->
  let r := sample F solver c fuel k h (callsUpTo c k) in
  Forall (fromInitialState F solver c) (history r)
  /\ calls r = callsUpTo c (List.length (calls r)).
Proof.
  induction fuel as [|fuel IH]; intros k h H; cbn [sample].
  - cbn. split; [exact H|]. rewrite callsUpTo_length. reflexivity.
  - destruct (leb (tick c k) (finish c)).
    + destruct (propagate F solver (initialState c)
                  (gravitationalParameter c) (elapsedAt c k)) as [s|e] eqn:P.
      * rewrite <- callsUpTo_S. apply IH.
        apply put_Forall; [|exact H].
        exists k. split; [reflexivity | exact P].
      * cbn. split; [exact H|]. rewrite <- callsUpTo_S.
        rewrite callsUpTo_length. reflexivity.
    + cbn. split; [exact H|]. rewrite callsUpTo_length. reflexivity.
Qed.

(** A run whose step for sample [i + k] fails, the earlier ones
    succeeding, ends in [Failed] with that error and that tick. *)
Lemma sample_fails e k : forall fuel i h log,
  (k < fuel)%nat ->
  (forall j, (j <= k)%nat -> leb (tick c (i + j)) (finish c) = true) ->
  (forall j, (j < k)%nat ->
     exists s, propagate F solver (initialState c)
                 (gravitationalParameter c) (elapsedAt c (i + j)) = Ok s) ->
  propagate F solver (initialState c) (gravitationalParameter c)
            (elapsedAt c (i + k)) = Err e ->
  let r := sample F solver c fuel i h log in
  status r = Failed e (Some (tick c (i + k)))
  /\ List.length (calls r) = (List.length log + S k)%nat
  /\ (List.length (history r) <= List.length h + k)%nat.
Proof.
  induction k as [|k IH]; intros fuel i h log Hf Ht Ho He;
    (destruct fuel as [|fuel]; [lia|]); cbn [sample].
  - pose proof (Ht 0%nat ltac:(lia)) as T0.
    rewrite Nat.add_0_r in T0, He. rewrite T0, He. cbn.
    rewrite Nat.add_0_r, length_app. cbn. repeat split; lia.
  - pose proof (Ht 0%nat ltac:(lia)) as T0.
    replace (i + 0)%nat with i in T0 by lia. rewrite T0.
    destruct (Ho 0%nat ltac:(lia)) as [s Hs].
    replace (i + 0)%nat with i in Hs by lia. rewrite Hs.
    replace (i + S k)%nat with (S i + k)%nat in * by lia.
    destruct (IH fuel (S i) (DoubleMap.put (tick c i) s h)
                (log ++ [(initialState c, elapsedAt c i)])) as (A & B & C).
    + lia.
    + intros j Hj. replace (S i + j)%nat with (i + S j)%nat by lia.
      apply Ht. lia.
    + intros j Hj. replace (S i + j)%nat with (i + S j)%nat by lia.
      apply Ho. lia.
    + exact He.
    + cbv zeta. rewrite A, B, length_app. cbn [List.length].
      repeat split; try lia.
      assert (P : forall (m : DoubleMap.t CartesianState) t v,
                 (List.length (DoubleMap.put t v m) <= S (List.length m))%nat).
      { clear. induction m as [|[t' v'] m IHm]; intros t v; cbn; [lia|].
        destruct (ltb t t'); cbn; [lia|].
        destruct (ltb t' t); cbn; [|lia]. specialize (IHm t v). lia. }
      specialize (P h (tick c i) s). lia.
Qed.
(** What is found at the ticks sampled so far stays found, and the
    tick just sampled is found with the state just computed. *)
Lemma sample_stored fuel : forall k h,
  Forall (fun kv : double * CartesianState => comparable (fst kv)) h ->
  (forall i, (i < k)%nat -> leb (tick c i) (finish c) = true) ->
  (forall i, (i < k)%nat ->
     exists s j,
       DoubleMap.find (tick c i) h = Some s
       /\ (j < k)%nat
       /\ DoubleMap.equiv (tick c i) (tick c j) = true
       /\ propagate F solver (initialState c) (gravitationalParameter c)
            (elapsedAt c j) = Ok s) ->
  let r := sample F solver c fuel k h (callsUpTo c k) in
  (forall i, (i < sampled r)%nat ->
     leb (tick c i) (finish c) = true /\ storedAtTick F solver c r i)
  /\ (status r = Completed -> leb (tick c (sampled r)) (finish c) = false).
Proof.
  induction fuel as [|fuel IH]; intros k h C T S; cbn [sample].
  - cbv zeta. unfold storedAtTick, sampled.
    cbn [status calls history]. rewrite callsUpTo_length.
    split; [|discriminate]. intros i Hi. split; [apply T, Hi | apply S, Hi].
  - destruct (leb (tick c k) (finish c)) eqn:L.
    + destruct (propagate F solver (initialState c)
                  (gravitationalParameter c) (elapsedAt c k)) as [s|e] eqn:P.
      * rewrite <- callsUpTo_S. apply IH.
        -- apply put_Forall; [|exact C].
           cbn [fst]. apply (leb_comparable _ _ L).
        -- intros i Hi. destruct (Nat.eq_dec i k) as [->|Ne];
             [exact L | apply T; lia].
        -- intros i Hi.
           assert (Ci : comparable (tick c i)).
           { destruct (Nat.eq_dec i k) as [->|Ne];
               [exact (leb_comparable _ _ L)|].
             apply (leb_comparable _ (finish c)), T. lia. }
           rewrite (find_put (tick c i) (tick c k) s h Ci
                      (leb_comparable _ _ L) C).
           destruct (DoubleMap.equiv (tick c i) (tick c k)) eqn:E.
           ++ exists s, k. repeat split; try assumption. lia.
           ++ assert (Hi' : (i < k)%nat).
              { destruct (Nat.eq_dec i k) as [->|Ne]; [|lia].
                rewrite equiv_refl in E. discriminate E. }
              destruct (S i Hi') as (s' & j & F' & Hj & E' & P').
              exists s', j. repeat split; try assumption. lia.
      * cbv zeta. unfold storedAtTick, sampled.
        cbn [status calls history]. rewrite <- callsUpTo_S, callsUpTo_length.
        cbn [Nat.pred]. split; [|discriminate].
        intros i Hi. split; [apply T, Hi | apply S, Hi].
    + cbv zeta. unfold storedAtTick, sampled.
      cbn [status calls history]. rewrite callsUpTo_length.
      split; [|intros _; exact L].
      intros i Hi. split; [apply T, Hi | apply S, Hi].
Qed.

Lemma ticksIncreasing_spec n j k :
  ticksIncreasing c n = true -> (j < k < n)%nat ->
  ltb (tick c j) (tick c k) = true.
Proof.
  unfold ticksIncreasing. intros H Hjk.
  rewrite forallb_forall in H. specialize (H k).
  rewrite forallb_forall in H. apply H; apply in_seq; lia.
Qed.
End Driver.

(** C6: in every run of the series driver, for every tick sampled, a
    state is found in the history at that tick, and it is the result of
    the single-step propagator on the original initial state with the
    elapsed time (tick - start): that of the tick itself when the ticks
    are distinct keys, that of a tick which is the same key otherwise.
    The ticks sampled are all those not after the end time when the run
    completes. Each entry of the history is such a result for its own
    key, and the calls made to the propagator are, in order, the calls
    on the original initial state for the samples 0, 1, 2, ...: no call
    starts from an earlier sample. *)
Theorem samples_propagated_from_initial_state F solver c fuel :
  let r := execute F solver fuel c in
  Forall (fromInitialState F solver c) (history r)
  /\ calls r = callsUpTo c (List.length (calls r))
  /\ Forall (fun call => fst call = initialState c) (calls r)
  /\ (forall k, (k < sampled r)%nat ->
        leb (tick c k) (finish c) = true /\ storedAtTick F solver c r k)
  /\ (status r = Completed -> leb (tick c (sampled r)) (finish c) = false)
  /\ (ticksIncreasing c (sampled r) = true ->
      forall k, (k < sampled r)%nat -> storedExactly F solver c r k).
Proof.
  cbv zeta.
  assert (H : Forall (fromInitialState F solver c)
                (history (execute F solver fuel c))
              /\ calls (execute F solver fuel c)
                 = callsUpTo c (List.length (calls (execute F solver fuel c)))).
  { unfold execute. destruct (validConfiguration c).
    - apply (sample_invariant F solver c fuel 0 DoubleMap.empty).
      constructor.
    - cbn. split; [constructor | reflexivity]. }
  assert (G : (forall k, (k < sampled (execute F solver fuel c))%nat ->
                 leb (tick c k) (finish c) = true
                 /\ storedAtTick F solver c (execute F solver fuel c) k)
              /\ (status (execute F solver fuel c) = Completed ->
                  leb (tick c (sampled (execute F solver fuel c))) (finish c)
                  = false)).
  { unfold execute. destruct (validConfiguration c).
    - apply (sample_stored F solver c fuel 0 DoubleMap.empty).
      + constructor.
      + intros i Hi. lia.
      + intros i Hi. lia.
    - split; [|discriminate]. cbn. intros k Hk. lia. }
  destruct H as [H1 H2]. destruct G as [G1 G2].
  split; [exact H1|]. split; [exact H2|]. split.
  { rewrite H2. unfold callsUpTo. apply Forall_map.
    apply Forall_forall. reflexivity. }
  split; [exact G1|]. split; [exact G2|].
  intros I k Hk. destruct (G1 k Hk) as [_ (s & j & Fd & Hj & E & P)].
  exists s. split; [exact Fd|].
  destruct (Nat.lt_trichotomy j k) as [Lt|[->|Gt]]; [|exact P|].
  - pose proof (ticksIncreasing_spec c _ j k I (conj Lt Hk)) as L.
    unfold DoubleMap.equiv in E. rewrite L in E.
    rewrite andb_false_r in E. discriminate E.
  - pose proof (ticksIncreasing_spec c _ k j I (conj Gt Hj)) as L.
    unfold DoubleMap.equiv in E. rewrite L in E. discriminate E.
Qed.

(** The calibration series with samples that differ from tick to tick:
    the run completes with 25 ticks, all distinct keys, and the state of
    each is found at its tick; at the last tick, 86400 s, it is the one
    propagated over 86400 s. *)
Lemma samples_propagated_from_initial_state_witness :
  let r := execute driftingFormulas defaultSolverConfiguration 26
             dayByTheHour in
  status r = Completed
  /\ sampled r = 25%nat
  /\ (forall k, (k < 25)%nat ->
        storedExactly driftingFormulas defaultSolverConfiguration
          dayByTheHour r k)
  /\ DoubleMap.find (of_Z 86400) (history r)
     = Some {| x := mul (of_decimal false 1 (-3)) (of_Z 86400);
               y := zero; z := zero;
               xdot := zero; ydot := zero; zdot := zero |}
  /\ DoubleMap.size (history r) = 25%nat.
Proof.
  cbv zeta.
  pose proof (samples_propagated_from_initial_state driftingFormulas
                defaultSolverConfiguration dayByTheHour 26) as H.
  cbv zeta in H. destruct H as (_ & _ & _ & _ & _ & H).
  assert (N : sampled (execute driftingFormulas defaultSolverConfiguration 26
                         dayByTheHour) = 25%nat) by (vm_compute; reflexivity).
  rewrite N in H.
  split; [vm_compute; reflexivity|]. split; [exact N|].
  split; [apply H; vm_compute; reflexivity|].
  split; vm_compute; reflexivity.
Defined.

(** The calibration series runs to completion: 25 samples, 25 calls. *)
Example day_by_the_hour_completes :
  let r := execute flatFormulas defaultSolverConfiguration 26 dayByTheHour in
  status r = Completed
  /\ List.length (history r) = 25%nat
  /\ List.length (calls r) = 25%nat.
Proof. vm_compute. repeat split. Qed.

(** The iteration gives up once the cap is passed. *)
Lemma newtonRaphsonFrom_exceeds p tol : forall remaining i,
  (forall n, (i <= n <= i + remaining)%nat ->
     ltb (abs (residual p (iterate p n))) tol = false) ->
  newtonRaphsonFrom p tol remaining (iterate p i) = Err ConvergenceError.
Proof.
  induction remaining as [|remaining IH]; intros i H; cbn [newtonRaphsonFrom].
  - rewrite (H i) by lia. reflexivity.
  - rewrite (H i) by lia.
    change (newtonStep p (iterate p i)) with (iterate p (S i)).
    apply IH. intros n Hn. apply H. lia.
Qed.

(** C7: when, at some tick, the Newton-Raphson iterates of the Kepler
    equation never meet the tolerance up to the iteration cap, the
    solver fails with ConvergenceError, and so does the run of the
    series driver: it ends in [Failed] with that error and the tick
    that raised it, having stored a sample for earlier ticks only. *)
Theorem convergence_failure_surfaced F solver c fuel k el p :
  validConfiguration c = true ->
  (k < fuel)%nat ->
  (forall j, (j <= k)%nat -> leb (tick c j) (finish c) = true) ->
  (forall j, (j < k)%nat ->
     exists s, propagate F solver (initialState c)
                 (gravitationalParameter c) (elapsedAt c j) = Ok s) ->
  cartesianToKeplerian F (initialState c) (gravitationalParameter c) = Ok el ->
  keplerProblem F (classify F (eccentricity el)) (eccentricity el)
    (advancedMeanAnomaly F el (gravitationalParameter c) (elapsedAt c k))
  = Some p ->
  (forall n, (n <= maximumIterations solver)%nat ->
     ltb (abs (residual p (iterate p n))) (tolerance solver) = false) ->
  let r := execute F solver fuel c in
  newtonRaphson solver p = Err ConvergenceError
  /\ status r = Failed ConvergenceError (Some (tick c k))
  /\ List.length (calls r) = S k
  /\ (List.length (history r) <= k)%nat.
Proof.
  intros V Hf Ht Ho Hc Hp Hn. cbv zeta.
  assert (N : newtonRaphson solver p = Err ConvergenceError).
  { unfold newtonRaphson.
    apply (newtonRaphsonFrom_exceeds p (tolerance solver)
             (maximumIterations solver) 0).
    intros n Hn'. apply Hn. lia. }
  assert (P : propagate F solver (initialState c) (gravitationalParameter c)
                (elapsedAt c k) = Err ConvergenceError).
  { unfold propagate. rewrite Hc. cbn [bind].
    unfold solveKepler. rewrite Hp, N. reflexivity. }
  split; [exact N|].
  unfold execute. rewrite V.
  destruct (sample_fails F solver c ConvergenceError k fuel 0
              DoubleMap.empty [] Hf Ht Ho P) as (A & B & C).
  cbn in A, B, C. auto.
Qed.

Lemma convergence_failure_surfaced_witness :
  validConfiguration dayByTheHour = true
  /\ status (execute flatFormulas unsatisfiableSolver 30 dayByTheHour)
     = Failed ConvergenceError (Some (tick dayByTheHour 0)).
Proof.
  split; [reflexivity|].
  refine (proj1 (proj2
    (convergence_failure_surfaced flatFormulas unsatisfiableSolver
       dayByTheHour 30 0 someElements
       {| residual := fun E => sub (sub E (mul half zero)) zero;
          derivative := fun E => sub (of_Z 1) (mul half zero);
          seed := zero |}
       _ _ _ _ _ _ _))).
  - reflexivity.
  - lia.
  - intros j Hj. replace j with 0%nat by lia. vm_compute. reflexivity.
  - intros j Hj. lia.
  - reflexivity.
  - vm_compute. reflexivity.
  - intros n Hn. cbn in Hn.
    destruct n as [|[|[|n]]]; [vm_compute; reflexivity .. | lia].
Defined.

(** A completed run made no failing call. *)
Lemma completed_run_has_no_failure F solver c fuel :
  status (execute F solver fuel c) = Completed ->
  Forall (callSucceeds F solver c) (calls (execute F solver fuel c)).
Proof.
  unfold execute. destruct (validConfiguration c); [|discriminate].
  assert (G : forall fuel k h log,
            Forall (callSucceeds F solver c) log ->
            status (sample F solver c fuel k h log) = Completed ->
            Forall (callSucceeds F solver c)
                   (calls (sample F solver c fuel k h log))).
  { clear fuel. induction fuel as [|fuel IH]; intros k h log L; cbn [sample].
    - discriminate.
    - destruct (leb (tick c k) (finish c)); [|intros _; exact L].
      destruct (propagate F solver (initialState c)
                  (gravitationalParameter c) (elapsedAt c k)) as [s|e] eqn:P;
        [|discriminate].
      apply IH. apply Forall_app. split; [exact L|].
      constructor; [|constructor]. exists s. exact P. }
  apply G. constructor.
Qed.
End DesignFacts.

(** ** The loading loop on any text *)

Module TerminationFacts.
Import Double IStream UnitTest BenchmarkFile Coverage.
Import IStreamFacts LoaderFacts UnitTestFacts.

Lemma skipws_length cs : (List.length (skipws cs) <= List.length cs)%nat.
Proof.
  induction cs as [|c cs IH]; cbn; [lia|].
  destruct (isspace c); cbn; lia.
Qed.

Lemma scan_length cs : forall st field rest ateof,
  scan st cs = (field, rest, ateof) ->
  (List.length field + List.length rest = List.length cs)%nat.
Proof.
  induction cs as [|c cs IH]; intros st field rest ateof H; cbn in H.
  - inversion H; subst. reflexivity.
  - destruct (scan_step st c) as [st'|].
    + destruct (scan st' cs) as [[f r] e] eqn:E. inversion H; subst.
      cbn. rewrite (IH st' f rest ateof E). reflexivity.
    + inversion H; subst. reflexivity.
Qed.

(** An extraction either leaves the stream failed, or it succeeded on a
    stream that had not failed and took at least one character. *)
Lemma extract_progress s :
  failbit (fst (extract s)) = true
  \/ (failbit (fst (extract s)) = false
      /\ failbit s = false
      /\ (List.length (rdbuf (fst (extract s))) < List.length (rdbuf s))%nat).
Proof.
  unfold extract. destruct (good s) eqn:G; [|left; reflexivity].
  assert (Fs : failbit s = false).
  { unfold good in G. destruct (failbit s); [discriminate | reflexivity]. }
  pose proof (skipws_length (rdbuf s)) as L.
  destruct (skipws (rdbuf s)) as [|c cs] eqn:E; [left; reflexivity|].
  destruct (scan scan_init (c :: cs)) as [[field rest] ateof] eqn:S.
  pose proof (scan_length _ _ _ _ _ S) as SL.
  destruct (strtod field) as [v|] eqn:T; [|left; reflexivity].
  right. cbn [fst failbit rdbuf]. repeat split; try assumption.
  destruct field as [|f field]; [discriminate T|].
  cbn [List.length] in *. lia.
Qed.

Lemma extract_failed_stays s :
  failbit s = true -> fst (extract s) = s.
Proof. intros H. rewrite (extract_not_good s H). reflexivity. Qed.

(** The stream after [n] extractions in a row. *)
Lemma extractions_progress n : forall s,
  failbit (Nat.iter (S n) (fun s => fst (extract s)) s) = false ->
  (List.length (rdbuf (Nat.iter (S n) (fun s => fst (extract s)) s))
   < List.length (rdbuf s))%nat.
Proof.
  induction n as [|n IH]; intros s H.
  - cbn in *. destruct (extract_progress s) as [F|(_ & _ & L)];
      [congruence | exact L].
  - change (Nat.iter (S (S n)) ?f s) with (f (Nat.iter (S n) f s)) in *.
    set (t := Nat.iter (S n) (fun s => fst (extract s)) s) in *.
    destruct (extract_progress t) as [F|(_ & Ft & L)]; [congruence|].
    specialize (IH s Ft). fold t in IH. lia.
Qed.

Lemma storeComponents_file k idx : forall s h,
  fst (fold_left (storeComponent k) idx (s, h))
  = fold_left (fun s (_ : nat) => fst (extract s)) idx s.
Proof.
  induction idx as [|i idx IH]; intros s h; [reflexivity|].
  cbn [fold_left]. unfold storeComponent at 2.
  destruct (extract s) as [s' r] eqn:E. rewrite IH. cbn [fst]. reflexivity.
Qed.

(** A pass of the loop body makes seven extractions. *)
Lemma loadRow_file l :
  twoBodyKeplerBenchmarkFile (loadRow l)
  = Nat.iter 7 (fun s => fst (extract s)) (twoBodyKeplerBenchmarkFile l).
Proof.
  unfold loadRow.
  destruct (extract (twoBodyKeplerBenchmarkFile l)) as [s1 r] eqn:E.
  pose proof (storeComponents_file (twoBodyKeplerDataCounter l) (seq 0 6) s1
                (benchmarkKeplerPropagationHistory l)) as F.
  destruct (fold_left (storeComponent (twoBodyKeplerDataCounter l)) (seq 0 6)
              (s1, benchmarkKeplerPropagationHistory l)) as [s7 h7].
  cbn [fst twoBodyKeplerBenchmarkFile] in *. rewrite F.
  replace s1 with (fst (extract (twoBodyKeplerBenchmarkFile l)))
    by (rewrite E; reflexivity).
  reflexivity.
Qed.

Lemma loadLoop_hangs_after l :
  eof (twoBodyKeplerBenchmarkFile l) = false ->
  (forall fuel, loadLoop fuel (loadRow l) = None) ->
  forall fuel, loadLoop fuel l = None.
Proof.
  intros E H [|fuel]; [reflexivity|]. rewrite loadLoop_S, E. apply H.
Qed.

(** From a stream with [n] characters left the loop ends within [n + 2]
    passes, or it never ends. *)
Lemma loadLoop_decided n : forall l,
  (List.length (rdbuf (twoBodyKeplerBenchmarkFile l)) <= n)%nat ->
  (exists loaded, loadLoop (S (S n)) l = Some loaded)
  \/ (forall fuel, loadLoop fuel l = None).
Proof.
  induction n as [|n IH]; intros l Ln.
  - destruct (eofbit (twoBodyKeplerBenchmarkFile l)) eqn:E.
    { left. exists l. rewrite loadLoop_S. unfold eof. rewrite E. reflexivity. }
    destruct (failbit (twoBodyKeplerBenchmarkFile (loadRow l))) eqn:F.
    + destruct (eofbit (twoBodyKeplerBenchmarkFile (loadRow l))) eqn:E1.
      * left. exists (loadRow l). rewrite !loadLoop_S. unfold eof.
        rewrite E, E1. reflexivity.
      * right. apply loadLoop_hangs_after; [exact E|].
        intros fuel. apply loadLoop_failed; assumption.
    + rewrite loadRow_file in F. apply extractions_progress in F.
      rewrite <- loadRow_file in F. lia.
  - destruct (eofbit (twoBodyKeplerBenchmarkFile l)) eqn:E.
    { left. exists l. rewrite loadLoop_S. unfold eof. rewrite E. reflexivity. }
    destruct (failbit (twoBodyKeplerBenchmarkFile (loadRow l))) eqn:F.
    + destruct (eofbit (twoBodyKeplerBenchmarkFile (loadRow l))) eqn:E1.
      * left. exists (loadRow l). rewrite !loadLoop_S. unfold eof.
        rewrite E, E1. reflexivity.
      * right. apply loadLoop_hangs_after; [exact E|].
        intros fuel. apply loadLoop_failed; assumption.
    + assert (L : (List.length (rdbuf (twoBodyKeplerBenchmarkFile (loadRow l)))
                   <= n)%nat).
      { rewrite loadRow_file in F. apply extractions_progress in F.
        rewrite <- loadRow_file in F. lia. }
      destruct (IH (loadRow l) L) as [[loaded H]|H].
      * left. exists loaded. rewrite loadLoop_S. unfold eof. rewrite E.
        exact H.
      * right. apply loadLoop_hangs_after; assumption.
Qed.

(** X1: whatever the benchmark file holds and whatever the propagator
    does, the test either returns false, having written nothing, within
    two passes of the loading loop more than the file has characters,
    or it never returns. It never returns true. *)
Theorem test_returns_false_or_hangs env (contents : list ascii) :
  (exists loaded,
      loadLoop (S (S (List.length contents))) (loadStart (open (Some contents)))
      = Some loaded
      /\ forall fuel,
           (S (S (List.length contents)) <= fuel)%nat ->
           testKeplerPropagator env fuel (Some contents) = Returns (false, []))
  \/ (forall fuel,
        loadLoop fuel (loadStart (open (Some contents))) = None
        /\ testKeplerPropagator env fuel (Some contents) = OutOfFuel).
Proof.
  destruct (loadLoop_decided (List.length contents)
              (loadStart (open (Some contents)))) as [[loaded H]|H];
    [cbn; lia | left | right].
  - exists loaded. split; [exact H|]. intros fuel Le.
    apply (test_returns_false env fuel (Some contents) loaded).
    apply (loadLoop_more_fuel _ _ _ _ H Le).
  - intros fuel. split; [apply H|].
    unfold testKeplerPropagator, openBenchmark. rewrite H. reflexivity.
Qed.
End TerminationFacts.

(** ** Tables that are not made of complete rows of numbers *)

Module RaggedFacts.
Import Double IStream UnitTest BenchmarkFile Coverage.
Import IStreamFacts DoubleMapFacts KeyFacts LoaderFacts HistoryFacts.
Import UnitTestFacts TerminationFacts.

Lemma stops_later r rows rest :
  laterRowOk r -> stops (render (r :: rows) rest) = true.
Proof.
  intros [(L & W & _) S].
  rewrite renderRows_cons. destruct r as [|f r]; [discriminate L|].
  inversion W; subst. inversion S; subst.
  apply before_field; assumption.
Qed.

(** The passes over the complete rows at the head of a text. *)
Lemma loadLoop_prefix_rows rows : forall r rest h el k fuel,
  rowOk r -> Forall laterRowOk rows ->
  stops rest = true -> rest <> [] ->
  exists el',
    loadLoop (S (List.length rows) + fuel)
      {| twoBodyKeplerBenchmarkFile :=
           streamAt false (render (r :: rows) rest);
         benchmarkKeplerPropagationHistory := h;
         elapsedTime := el;
         twoBodyKeplerDataCounter := k |}
    = loadLoop fuel
        {| twoBodyKeplerBenchmarkFile := streamAt false rest;
           benchmarkKeplerPropagationHistory := storeRows k (r :: rows) h;
           elapsedTime := el';
           twoBodyKeplerDataCounter := counterAfter k (r :: rows) |}.
Proof.
  induction rows as [|r' rows IH]; intros r rest h el k fuel R Rs St Ne.
  - change (S (List.length (@nil row)) + fuel)%nat with (S fuel).
    rewrite loadLoop_S. cbn [twoBodyKeplerBenchmarkFile streamAt eof eofbit].
    fold (streamAt false (render [r] rest)).
    rewrite renderRows_cons.
    change (render [] rest) with rest.
    rewrite (loadRow_row r rest h el k R St).
    destruct rest as [|c rest]; [congruence|].
    cbn [atEnd storeRows counterAfter]. eexists. reflexivity.
  - inversion Rs as [|? ? R' Rs']; subst.
    change (S (List.length (r' :: rows)) + fuel)%nat
      with (S (S (List.length rows) + fuel)).
    rewrite loadLoop_S. cbn [twoBodyKeplerBenchmarkFile streamAt eof eofbit].
    fold (streamAt false (render (r :: r' :: rows) rest)).
    rewrite renderRows_cons.
    rewrite (loadRow_row r (render (r' :: rows) rest) h el k R
               (stops_later r' rows rest R')).
    rewrite (laterRows_atEnd r' rows rest R').
    destruct (IH r' rest
                (storeValues (benchmarkKey k) (map value (tl r)) h)
                (value (hd {| leading := []; text := [] |} r))
                (uint_succ k) fuel (proj1 R') Rs' St Ne) as [el' E].
    exists el'. rewrite E. reflexivity.
Qed.

Lemma loadLoop_prefix rows rest fuel :
  tableOk rows -> (rows = [] \/ stops rest = true) -> rest <> [] ->
  exists el',
    loadLoop (List.length rows + fuel)
      (loadStart (open (Some (render rows rest))))
    = loadLoop fuel
        {| twoBodyKeplerBenchmarkFile := streamAt false rest;
           benchmarkKeplerPropagationHistory :=
             storeRows 0 rows DoubleMap.empty;
           elapsedTime := el';
           twoBodyKeplerDataCounter := counterAfter 0 rows |}.
Proof.
  intros T St Ne. destruct rows as [|r rows].
  - exists zero. reflexivity.
  - destruct T as [R Rs]. destruct St as [St|St]; [discriminate St|].
    apply (loadLoop_prefix_rows rows r rest DoubleMap.empty zero 0 fuel
             R Rs St Ne).
Qed.

Lemma extract_bad ws c more :
  blank ws = true -> cannotStartNumber c = true ->
  extract (streamAt false (ws ++ c :: more))
  = ({| failbit := true; eofbit := false; rdbuf := c :: more |},
     Some zero).
Proof.
  unfold cannotStartNumber. intros B C.
  apply andb_true_iff in C as [Sp C]. apply negb_true_iff in Sp.
  unfold extract, good, streamAt. cbn [failbit eofbit rdbuf orb negb].
  rewrite (skipws_blank ws c more B Sp). cbn [scan].
  destruct (scan_step scan_init c); [discriminate C|]. reflexivity.
Qed.

Lemma iter_failed n s :
  failbit s = true -> Nat.iter n (fun s => fst (extract s)) s = s.
Proof.
  intros H. induction n as [|n IH]; [reflexivity|].
  rewrite Nat.iter_succ, IH. apply extract_failed_stays, H.
Qed.

(** A pass whose first extraction fails leaves the stream as that
    extraction left it. *)
Lemma loadRow_file_failed l s r :
  extract (twoBodyKeplerBenchmarkFile l) = (s, r) ->
  failbit s = true ->
  twoBodyKeplerBenchmarkFile (loadRow l) = s.
Proof.
  intros E F. rewrite loadRow_file, Nat.iter_succ_r, E. cbn [fst].
  apply iter_failed, F.
Qed.

(** A loop that ends with some fuel has not hung. *)
Lemma loadLoop_not_both n l loaded :
  loadLoop n l = Some loaded -> forall m k, loadLoop (m + n) l = k ->
  k = Some loaded.
Proof.
  intros H m k E. rewrite <- E.
  apply (loadLoop_more_fuel n (m + n) l loaded H). lia.
Qed.

(** X2: a table in which, after any number of complete rows, the next
    field starts with a character that cannot begin a number (a header
    line, a comment mark, a word) makes the loading loop run for ever:
    the extraction fails without reaching the end of the file, and the
    test never returns. *)
Theorem text_in_table_hangs env rows ws c more fuel :
  tableOk rows ->
  blank ws = true ->
  (rows = [] \/ ws <> []) ->
  cannotStartNumber c = true ->
  loadLoop fuel (loadStart (open (Some (render rows (ws ++ c :: more)))))
  = None
  /\ testKeplerPropagator env fuel (Some (render rows (ws ++ c :: more)))
     = OutOfFuel.
Proof.
  intros T B Sep C.
  assert (St : rows = [] \/ stops (ws ++ c :: more) = true).
  { destruct Sep as [E|Nw]; [left; exact E|right].
    destruct ws as [|w ws]; [congruence|]. cbn in *.
    apply andb_true_iff in B as [Bw _]. exact Bw. }
  assert (Ne : ws ++ c :: more <> []) by (destruct ws; discriminate).
  assert (H : loadLoop fuel
                (loadStart (open (Some (render rows (ws ++ c :: more)))))
              = None).
  { destruct (loadLoop fuel
                (loadStart (open (Some (render rows (ws ++ c :: more))))))
      as [loaded|] eqn:E; [|reflexivity].
    destruct (loadLoop_prefix rows (ws ++ c :: more) fuel T St Ne) as [el' P].
    pose proof (loadLoop_not_both _ _ _ E (List.length rows) _ P) as Q.
    exfalso. revert Q. rewrite loadLoop_hangs_after; [discriminate|reflexivity|].
    intros fuel'.
    apply loadLoop_failed;
      match goal with
      | |- context [loadRow ?l] =>
          rewrite (loadRow_file_failed l _ _ (extract_bad ws c more B C))
      end; reflexivity. }
  split; [exact H|].
  unfold testKeplerPropagator, openBenchmark. rewrite H. reflexivity.
Qed.

Lemma text_in_table_hangs_witness :
  tableOk [Samples.initialRow]
  /\ cannotStartNumber "#" = true
  /\ testKeplerPropagator (Samples.collaborators Samples.standingStill) 50
       (Some (render [Samples.initialRow]
                (Samples.newline ++ list_ascii_of_string "# end of data")))
     = OutOfFuel.
Proof.
  assert (T : tableOk [Samples.initialRow]).
  { split; [|constructor]. repeat split.
    - repeat constructor.
    - repeat constructor. }
  split; [exact T|]. split; [reflexivity|].
  apply (text_in_table_hangs (Samples.collaborators Samples.standingStill)
           [Samples.initialRow] Samples.newline "#"
           (list_ascii_of_string " end of data") 50 T).
  - reflexivity.
  - right. discriminate.
  - reflexivity.
Defined.

(** *** A last row cut short *)

Lemma storeFields k rest : forall fs f i h,
  wellFormedField f = true -> follows fs rest ->
  fold_left (storeComponent k) (seq i (S (List.length fs)))
            (streamAt false (renderRow (f :: fs) ++ rest), h)
  = (streamAt (atEnd rest) rest,
     fold_left (storeOne (benchmarkKey k))
               (combine (seq i (S (List.length fs))) (map value (f :: fs))) h).
Proof.
  induction fs as [|f' fs IH]; intros f i h W Fo.
  - cbn [List.length seq fold_left map combine].
    rewrite (storeComponent_next k f [] rest h i W Fo). reflexivity.
  - cbn [List.length]. rewrite <- cons_seq.
    cbn [fold_left map combine].
    rewrite (storeComponent_next k f (f' :: fs) rest h i W Fo).
    rewrite (follows_atEnd _ _ _ Fo).
    destruct Fo as [Fo St]. inversion Fo as [|? ? [W' _] Fo']; subst.
    rewrite (IH f' (S i) _ W' (conj Fo' St)). reflexivity.
Qed.

Lemma storeFailed k idx : forall s h,
  failbit s = true ->
  fold_left (storeComponent k) idx (s, h)
  = (s, if isEmpty idx then h
        else DoubleMap.subscript CartesianElements_default (benchmarkKey k) h).
Proof.
  induction idx as [|i idx IH]; intros s h F; [reflexivity|].
  cbn [fold_left isEmpty]. rewrite (storeComponent_failed k s h i F), (IH _ _ F).
  destruct idx; cbn [isEmpty]; [reflexivity|]. rewrite subscript_idem.
  reflexivity.
Qed.

(** The extraction that meets the end of the table. *)
Lemma storeComponent_atEnd k trailing h i :
  blank trailing = true ->
  storeComponent k (streamAt (atEnd trailing) trailing, h) i
  = (streamAtEnd,
     DoubleMap.subscript CartesianElements_default (benchmarkKey k) h).
Proof.
  intros B. unfold storeComponent. destruct trailing as [|c t].
  - reflexivity.
  - cbn [atEnd]. unfold streamAt. rewrite (extract_blank (c :: t) B).
    reflexivity.
Qed.

Lemma blank_stops trailing : blank trailing = true -> stops trailing = true.
Proof.
  destruct trailing as [|c t]; [reflexivity|]. cbn.
  intros B. apply andb_true_iff in B as [Bc _]. exact Bc.
Qed.

(** The pass that reads a row cut short: the stream ends, and the entry
    at the key of the counter gets the components that were read. *)
Lemma loadRow_partial f0 fs trailing h el k :
  (List.length fs <= 5)%nat ->
  wellFormedField f0 = true ->
  Forall (fun f => wellFormedField f = true /\ separated f = true) fs ->
  blank trailing = true ->
  loadRow {| twoBodyKeplerBenchmarkFile :=
               streamAt false (renderRow (f0 :: fs) ++ trailing);
             benchmarkKeplerPropagationHistory := h;
             elapsedTime := el;
             twoBodyKeplerDataCounter := k |}
  = {| twoBodyKeplerBenchmarkFile := streamAtEnd;
       benchmarkKeplerPropagationHistory :=
         DoubleMap.subscript CartesianElements_default (benchmarkKey k)
           (fold_left (storeOne (benchmarkKey k))
                      (combine (seq 0 (List.length fs)) (map value fs)) h);
       elapsedTime := value f0;
       twoBodyKeplerDataCounter := uint_succ k |}.
Proof.
  intros L W0 Ws B.
  assert (Fo : follows fs trailing) by (split; [exact Ws | apply blank_stops, B]).
  unfold loadRow.
  cbn [twoBodyKeplerBenchmarkFile benchmarkKeplerPropagationHistory
       elapsedTime twoBodyKeplerDataCounter].
  rewrite (extract_next f0 fs trailing W0 Fo).
  destruct fs as [|f1 fs].
  - change (renderRow [] ++ trailing) with trailing.
    change (seq 0 6) with (0%nat :: seq 1 5). cbn [fold_left].
    rewrite (storeComponent_atEnd k trailing h 0 B).
    rewrite (storeFailed k (seq 1 5) streamAtEnd _ eq_refl).
    cbn [isEmpty seq List.length combine map fold_left].
    rewrite subscript_idem. reflexivity.
  - rewrite (follows_atEnd _ _ _ Fo).
    cbn [List.length] in L.
    replace 6%nat
      with (S (List.length fs) + S (5 - S (List.length fs)))%nat by lia.
    rewrite seq_app, fold_left_app.
    destruct Fo as [Fo St]. inversion Fo as [|? ? [W1 _] Fo']; subst.
    rewrite (storeFields k trailing fs f1 0 h W1 (conj Fo' St)).
    rewrite <- cons_seq. cbn [fold_left].
    rewrite (storeComponent_atEnd k trailing _ _ B).
    rewrite (storeFailed k _ streamAtEnd _ eq_refl).
    cbn [List.length].
    destruct (isEmpty (seq (S (0 + S (List.length fs)))
                           (5 - S (List.length fs))));
      [|rewrite subscript_idem]; reflexivity.
Qed.

(** The components of an entry that was assigned [vs] from the start. *)
Lemma storeOne_fold key h : forall vs i st,
  DoubleMap.below key h ->
  fold_left (storeOne key) (combine (seq i (List.length vs)) vs)
            (h ++ [(key, st)])
  = h ++ [(key,
           fold_left (fun s iv => setState (fst iv) (snd iv) s)
                     (combine (seq i (List.length vs)) vs) st)].
Proof.
  pose proof (ltb_irrefl key) as I.
  induction vs as [|v vs IH]; intros i st B; [reflexivity|].
  cbn [List.length seq combine fold_left]. unfold storeOne at 2.
  rewrite (subscript_last _ key st h B I), (modify_last key _ st h B I).
  cbn [fst snd]. apply IH, B.
Qed.

Lemma padded_entry key vs h :
  (List.length vs <= 6)%nat -> DoubleMap.below key h ->
  DoubleMap.subscript CartesianElements_default key
    (fold_left (storeOne key) (combine (seq 0 (List.length vs)) vs) h)
  = h ++ [(key, {| state := padded vs |})].
Proof.
  intros L B. pose proof (ltb_irrefl key) as I.
  destruct vs as [|v vs].
  - cbn [List.length seq combine fold_left].
    rewrite (subscript_below _ key h B). reflexivity.
  - cbn [List.length seq combine fold_left]. unfold storeOne at 2.
    rewrite (subscript_below _ key h B), (modify_last key _ _ h B I).
    cbn [fst snd].
    rewrite (storeOne_fold key h vs 1 _ B).
    rewrite (subscript_last _ key _ h B I).
    do 2 f_equal.
    cbn [List.length] in L.
    destruct vs as [|v2 [|v3 [|v4 [|v5 [|v6 [|]]]]]];
      try (cbn in L; lia); reflexivity.
Qed.

Lemma render_app rows p trailing :
  render (rows ++ [p]) trailing = render rows (renderRow p ++ trailing).
Proof.
  unfold render, renderRows. rewrite map_app, concat_app.
  cbn [map List.concat]. rewrite app_nil_r, <- app_assoc. reflexivity.
Qed.

Lemma tableOk_lengths rows :
  tableOk rows -> Forall (fun r : row => List.length r = 7%nat) rows.
Proof.
  destruct rows as [|r rows]; [constructor|]. intros [R Rs].
  constructor; [apply R|]. eapply Forall_impl; [|exact Rs].
  intros r' [R' _]. apply R'.
Qed.

Lemma entries_keysBelow rows : forall k,
  0 <= k -> keysBelow (k + Z.of_nat (List.length rows)) (entries k rows).
Proof.
  induction rows as [|r rows IH]; intros k Hk; [constructor|].
  cbn [entries List.length]. constructor.
  - exists k. cbn [fst]. split; [lia | reflexivity].
  - replace (k + Z.of_nat (S (List.length rows)))
      with ((k + 1) + Z.of_nat (List.length rows)) by lia.
    apply IH. lia.
Qed.

(** X3: when the last row of a table is cut short (between one and six
    numbers instead of seven), the loading loop ends all the same: the
    row gets an entry at its key, with the components that were read
    and zero for those that are missing. *)
Theorem truncated_row_is_padded rows p trailing fuel :
  tableOk rows ->
  partialRowOk (isEmpty rows) p ->
  blank trailing = true ->
  Z.of_nat (List.length rows) < UINT_MODULUS ->
  (List.length rows + 2 <= fuel)%nat ->
  exists loaded,
    loadLoop fuel
      (loadStart (open (Some (render (rows ++ [p]) trailing))))
    = Some loaded
    /\ benchmarkKeplerPropagationHistory loaded
       = entries 0 rows
           ++ [(benchmarkKey (Z.of_nat (List.length rows)),
                {| state := padded (map value (tl p)) |})].
Proof.
  intros T (Lp & Wp & Sp) B Lt Le.
  destruct p as [|f0 fs]; [cbn in Lp; lia|]. cbn [List.length] in Lp.
  inversion Wp as [|? ? W0 Ws]; subst.
  assert (Sfs : Forall (fun f => wellFormedField f = true
                                 /\ separated f = true) fs).
  { assert (S' : Forall (fun f => separated f = true) fs).
    { destruct (isEmpty rows); [exact Sp | inversion Sp; assumption]. }
    clear - Ws S'. induction Ws; constructor.
    - split; [assumption | inversion S'; assumption].
    - apply IHWs. inversion S'; assumption. }
  assert (Ne : renderRow (f0 :: fs) ++ trailing <> []).
  { rewrite renderRow_cons. apply wellFormedField_inv in W0 as [_ N].
    destruct (numeral_head _ _ N) as (c & cs & E & _). rewrite E.
    destruct (leading f0); discriminate. }
  assert (St : rows = [] \/ stops (renderRow (f0 :: fs) ++ trailing) = true).
  { destruct rows as [|r rows]; [left; reflexivity|right].
    cbn [isEmpty] in Sp. inversion Sp; subst.
    apply before_field; assumption. }
  rewrite render_app.
  destruct (loadLoop_prefix rows _ 2 T St Ne) as [el' P].
  rewrite loadLoop_S in P.
  cbn [twoBodyKeplerBenchmarkFile streamAt eof eofbit] in P.
  fold (streamAt false (renderRow (f0 :: fs) ++ trailing)) in P.
  rewrite (loadRow_partial f0 fs trailing _ el' _ ltac:(lia) W0 Sfs B) in P.
  rewrite loadLoop_S in P.
  cbn [twoBodyKeplerBenchmarkFile streamAtEnd eof eofbit] in P.
  eexists. split.
  - eapply loadLoop_more_fuel; [exact P | lia].
  - cbn [benchmarkKeplerPropagationHistory tl].
    destruct (storeRows_entries rows 0 DoubleMap.empty) as [E C];
      try lia; [constructor | apply tableOk_lengths, T |].
    rewrite E, C. cbn [DoubleMap.empty app Z.add].
    rewrite <- (length_map value fs).
    apply padded_entry; [rewrite length_map; lia|].
    apply keysBelow_below; [lia|]. apply (entries_keysBelow rows 0). lia.
Qed.

Lemma truncated_row_is_padded_witness :
  tableOk [Samples.initialRow]
  /\ Z.of_nat (List.length [Samples.initialRow]) < UINT_MODULUS
  /\ exists loaded,
       loadLoop 3
         (loadStart
            (open (Some (render ([Samples.initialRow]
                                   ++ [firstn 3 Samples.secondRow])
                                Samples.newline))))
       = Some loaded
       /\ DoubleMap.find (benchmarkKey 1)
            (benchmarkKeplerPropagationHistory loaded)
          = Some {| state := [of_decimal true 13205 (-1);
                              of_decimal false 660825 (-2);
                              zero; zero; zero; zero] |}.
Proof.
  assert (T : tableOk [Samples.initialRow]).
  { split; [|constructor]. repeat split; repeat constructor. }
  split; [exact T|]. split; [reflexivity|].
  destruct (truncated_row_is_padded [Samples.initialRow]
              (firstn 3 Samples.secondRow) Samples.newline 3 T)
    as (loaded & E & H).
  - repeat split; [cbn; lia | cbn; lia | repeat constructor
                   | repeat constructor].
  - reflexivity.
  - reflexivity.
  - cbn. lia.
  - exists loaded. split; [exact E|]. rewrite H. reflexivity.
Defined.
End RaggedFacts.

(** ** The keys, the comparison and the conversion *)

Module ComparisonFacts.
Import Double IStream UnitTest BenchmarkFile Coverage.
Import DoubleMapFacts KeyFacts LoaderFacts.

(** X4: the key [counter * 3600.0] is computed without rounding for
    every value of the 32-bit counter, so the keys are ordered as the
    counters are and two counters share a key only when they are
    equal. *)
Theorem benchmark_keys_exact j k :
  0 <= j < UINT_MODULUS ->
  0 <= k < UINT_MODULUS ->
  benchmarkKey k = of_Z (k * 3600)
  /\ ltb (benchmarkKey j) (benchmarkKey k) = (j <? k)
  /\ DoubleMap.equiv (benchmarkKey j) (benchmarkKey k) = (j =? k).
Proof.
  intros Hj Hk. split; [apply benchmarkKey_of_Z, Hk|].
  split; [|apply benchmarkKey_equiv; assumption].
  destruct (Z.ltb_spec j k) as [L|L].
  - apply benchmarkKey_lt; lia.
  - destruct (Z.eq_dec j k) as [->|Ne]; [apply ltb_irrefl|].
    apply (benchmarkKey_lt k j); lia.
Qed.

Lemma benchmark_keys_exact_witness :
  0 <= 4294967294 < UINT_MODULUS
  /\ 0 <= 4294967295 < UINT_MODULUS
  /\ benchmarkKey 4294967295 = of_Z 15461882262000
  /\ ltb (benchmarkKey 4294967294) (benchmarkKey 4294967295) = true.
Proof.
  assert (A : 0 <= 4294967294 < UINT_MODULUS) by (unfold UINT_MODULUS; lia).
  assert (B : 0 <= 4294967295 < UINT_MODULUS) by (unfold UINT_MODULUS; lia).
  destruct (benchmark_keys_exact 4294967294 4294967295 A B) as (E & L & _).
  repeat split; try lia; assumption.
Defined.

Lemma sumDifferences_ext env b1 b2 idx : forall acc,
  (forall i, In i idx ->
     getState i (DoubleMap.at_default CartesianElements_default
                   (mul (of_Z (Z.of_nat i))
                        (fixedOutputInterval (seriesPropagator env))) b1)
     = getState i (DoubleMap.at_default CartesianElements_default
                     (mul (of_Z (Z.of_nat i))
                          (fixedOutputInterval (seriesPropagator env))) b2)) ->
  sumDifferences env b1 idx acc = sumDifferences env b2 idx acc.
Proof.
  induction idx as [|i idx IH]; intros acc H; [reflexivity|].
  cbn [sumDifferences]. unfold differenceAt.
  rewrite (H i (or_introl eq_refl)).
  destruct (getState i _); [|reflexivity].
  destruct (getState i _); [|reflexivity].
  apply IH. intros i' Hi. apply H. right. exact Hi.
Qed.

(** X5: the sum the comparison forms reads six numbers of the benchmark
    history and no others: component [i] of the entry at key
    [i * interval], for [i] from 0 to 5. Two benchmark histories that
    agree there give the same sum, whatever else they hold. *)
Theorem comparison_reads_diagonal env b1 b2 acc :
  diagonal CartesianElements_default
    (fixedOutputInterval (seriesPropagator env)) b1
  = diagonal CartesianElements_default
      (fixedOutputInterval (seriesPropagator env)) b2 ->
  sumDifferences env b1 (seq 0 6) acc = sumDifferences env b2 (seq 0 6) acc.
Proof.
  unfold diagonal. intros H. apply sumDifferences_ext.
  apply map_ext_in_iff. exact H.
Qed.

Lemma comparison_reads_diagonal_witness :
  let env := Samples.collaborators everyHour in
  let b1 := sixEntries {| state := map of_Z [1; 2; 3; 4; 5; 6] |} in
  let b2 := offDiagonal b1 in
  b1 <> b2
  /\ sumDifferences env b1 (seq 0 6) zero
     = sumDifferences env b2 (seq 0 6) zero
  /\ sumDifferences env b1 (seq 0 6) zero <> None.
Proof.
  cbv zeta. split; [|split].
  - vm_compute. discriminate.
  - apply (comparison_reads_diagonal (Samples.collaborators everyHour)).
    vm_compute. reflexivity.
  - vm_compute. discriminate.
Defined.

Lemma find_map_values {V W : Type} (g : V -> W) k (m : DoubleMap.t V) :
  DoubleMap.find k (map (fun e : double * V => (fst e, g (snd e))) m)
  = option_map g (DoubleMap.find k m).
Proof.
  induction m as [|[k' v] m IH]; [reflexivity|].
  cbn [map DoubleMap.find fst snd].
  destruct (DoubleMap.equiv k k'); [reflexivity | exact IH].
Qed.

(** X6: the conversion of the propagation history to kilometres keeps
    every key: a tick is found afterwards exactly when it was found
    before, with its state converted once, and the number of samples is
    unchanged. *)
Theorem conversion_keeps_ticks env k :
  DoubleMap.find k (asterixKeplerPropagationHistory env)
  = option_map (inKilometers env)
      (DoubleMap.find k (propagationHistory env (seriesPropagator env)))
  /\ DoubleMap.size (asterixKeplerPropagationHistory env)
     = DoubleMap.size (propagationHistory env (seriesPropagator env)).
Proof.
  split.
  - apply (find_map_values (inKilometers env)).
  - unfold asterixKeplerPropagationHistory, DoubleMap.size.
    apply length_map.
Qed.

(** *** One pass of the loading loop, on any stream *)

Lemma find_modify {V : Type} k (f : V -> V) (m : DoubleMap.t V) :
  DoubleMap.find k (DoubleMap.modify k f m) = option_map f (DoubleMap.find k m).
Proof.
  induction m as [|[k' v] m IH]; [reflexivity|].
  cbn [DoubleMap.modify DoubleMap.find].
  destruct (DoubleMap.equiv k k') eqn:E; cbn [DoubleMap.find]; rewrite E;
    [reflexivity | exact IH].
Qed.

Lemma length_modify {V : Type} k (f : V -> V) (m : DoubleMap.t V) :
  List.length (DoubleMap.modify k f m) = List.length m.
Proof.
  induction m as [|[k' v] m IH]; [reflexivity|].
  cbn [DoubleMap.modify]. destruct (DoubleMap.equiv k k'); cbn; congruence.
Qed.

Lemma length_insert {V : Type} k (v : V) (m : DoubleMap.t V) :
  List.length (DoubleMap.insert k v m) = S (List.length m).
Proof.
  induction m as [|[k' v'] m IH]; [reflexivity|].
  cbn [DoubleMap.insert]. destruct (ltb k k'); cbn; congruence.
Qed.

(** What one [file >> history[ key ].state( i )] does to the history,
    whatever the stream gives. *)
Lemma storeComponent_history k s h i :
  let h' := snd (storeComponent k (s, h) i) in
  DoubleMap.find (benchmarkKey k) h' <> None
  /\ List.length h' =
     match DoubleMap.find (benchmarkKey k) h with
     | Some _ => List.length h
     | None => S (List.length h)
     end.
Proof.
  cbv zeta. unfold storeComponent.
  destruct (extract s) as [s' [v|]]; cbn [snd].
  - rewrite find_modify, length_modify. unfold DoubleMap.subscript.
    destruct (DoubleMap.find (benchmarkKey k) h) eqn:E.
    + rewrite E. split; [discriminate | reflexivity].
    + split; [|apply length_insert].
      pose proof (find_insert (benchmarkKey k) CartesianElements_default h) as N.
      destruct (DoubleMap.find (benchmarkKey k)
                  (DoubleMap.insert (benchmarkKey k)
                     CartesianElements_default h));
        [discriminate | congruence].
  - unfold DoubleMap.subscript.
    destruct (DoubleMap.find (benchmarkKey k) h) eqn:E.
    + rewrite E. split; [discriminate | reflexivity].
    + split; [apply find_insert | apply length_insert].
Qed.

Lemma storeComponents_history k idx : forall s h,
  DoubleMap.find (benchmarkKey k) h <> None ->
  let h' := snd (fold_left (storeComponent k) idx (s, h)) in
  DoubleMap.find (benchmarkKey k) h' <> None
  /\ List.length h' = List.length h.
Proof.
  induction idx as [|i idx IH]; intros s h N; cbv zeta.
  - split; [exact N | reflexivity].
  - cbn [fold_left].
    destruct (storeComponent_history k s h i) as [N1 L1].
    destruct (storeComponent k (s, h) i) as [s1 h1]. cbn [snd] in *.
    destruct (IH s1 h1 N1) as [N2 L2]. split; [exact N2|].
    rewrite L2, L1.
    destruct (DoubleMap.find (benchmarkKey k) h); [reflexivity | congruence].
Qed.

(** X7: every pass through the body of the loading loop, whatever the
    stream holds and whether or not anything can be read, advances the
    counter by one (modulo 2^32), leaves an entry at the key of the
    counter it started with, and adds that entry and no other to the
    history when the key was new. *)
Theorem pass_creates_entry l :
  twoBodyKeplerDataCounter (loadRow l)
  = uint_succ (twoBodyKeplerDataCounter l)
  /\ DoubleMap.find (benchmarkKey (twoBodyKeplerDataCounter l))
       (benchmarkKeplerPropagationHistory (loadRow l)) <> None
  /\ DoubleMap.size (benchmarkKeplerPropagationHistory (loadRow l))
     = match DoubleMap.find (benchmarkKey (twoBodyKeplerDataCounter l))
               (benchmarkKeplerPropagationHistory l) with
       | Some _ => DoubleMap.size (benchmarkKeplerPropagationHistory l)
       | None => S (DoubleMap.size (benchmarkKeplerPropagationHistory l))
       end.
Proof.
  unfold loadRow, DoubleMap.size.
  destruct (extract (twoBodyKeplerBenchmarkFile l)) as [s1 r].
  set (k := twoBodyKeplerDataCounter l).
  set (h := benchmarkKeplerPropagationHistory l).
  change (seq 0 6) with (0%nat :: seq 1 5). cbn [fold_left].
  destruct (storeComponent_history k s1 h 0) as [N1 L1].
  destruct (storeComponent k (s1, h) 0) as [s2 h2]. cbn [snd] in *.
  destruct (storeComponents_history k (seq 1 5) s2 h2 N1) as [N2 L2].
  destruct (fold_left (storeComponent k) (seq 1 5) (s2, h2)) as [s7 h7].
  cbn [snd twoBodyKeplerDataCounter benchmarkKeplerPropagationHistory] in *.
  split; [reflexivity|]. split; [exact N2|]. rewrite L2. exact L1.
Qed.
End ComparisonFacts.
